(** * The user workflow service of saffron (UserController)

    A shallow embedding of the Express-side controller that registers users,
    logs them in, verifies e-mail addresses, lists users page by page and
    stores submissions, together with the properties its specification states
    about it.

    The controller is written in continuation-passing style over a document
    store (Mongoose) and a mailer.  Every operation is embedded as a state
    transformer over an explicit [world] (the user collection, the mails
    handed to the mailer, the log of store operations, the console) that
    yields the arguments its callback receives, or an exception when the
    JavaScript code throws.

    Conventions.  Strings are sequences of ASCII characters.  The store is
    an in-memory collection kept in insertion order and it never fails, so
    the [err] a store call hands to its continuation is always [null] and
    the branches that only forward a store error are not taken.  The User
    model (hashing, tokens, profile validation) and the two library calls
    the controller makes ([validator.isEmail], [new RegExp]) are parameters,
    gathered in the class [User.Model]. *)

From Stdlib Require Import Bool Arith Lia List String Ascii ZArith.
From Stdlib Require Import Sorting.Sorted Sorting.Permutation.
Import ListNotations.

Local Open Scope string_scope.
Local Open Scope list_scope.

(* ===================================================================== *)
(** ** JavaScript values, strings and regular expressions                *)
(* ===================================================================== *)

Module JS.

(** The values an untyped argument can carry; the controller only asks
    whether one is a string ([typeof v === "string"], the [Str] case). *)
Inductive value :=
| Undefined
| Null
| Bool (b : bool)
| Num (n : Z)
| Str (s : string).

(** A string argument that may be missing ([undefined]). *)
Definition optstr := option string.

(** [!s] on a possibly missing string: missing and empty strings are falsy. *)
Definition falsy (s : optstr) : bool :=
  match s with
  | None => true
  | Some t => (String.length t =? 0)%nat
  end.

(** String concatenation coerces a missing operand to the text "undefined". *)
Definition to_string (s : optstr) : string :=
  match s with
  | None => "undefined"
  | Some t => t
  end.

(** Numbers as results of [Math.ceil (a / b)]. *)
Inductive number :=
| Fin (n : nat)
| Infinity
| NaN.

(** [Math.ceil(count / size)] on non-negative integers: dividing by zero
    gives [NaN] for 0/0 and [Infinity] otherwise. *)
Definition ceil_div (count size : nat) : number :=
  match size with
  | 0 => match count with 0 => NaN | _ => Infinity end
  | _ => Fin ((count + size - 1) / size)
  end.

(** *** Letter case (ASCII) *)

Definition is_upper (c : ascii) : bool :=
  let n := nat_of_ascii c in ((65 <=? n) && (n <=? 90))%nat.

Definition is_lower (c : ascii) : bool :=
  let n := nat_of_ascii c in ((97 <=? n) && (n <=? 122))%nat.

Definition lower_char (c : ascii) : ascii :=
  if is_upper c then ascii_of_nat (nat_of_ascii c + 32) else c.

Definition upper_char (c : ascii) : ascii :=
  if is_lower c then ascii_of_nat (nat_of_ascii c - 32) else c.

Fixpoint toLowerCase (s : string) : string :=
  match s with
  | EmptyString => EmptyString
  | String c t => String (lower_char c) (toLowerCase t)
  end.

(** *** Outcome of running a piece of code: it returns or it throws. *)
Inductive completion (A : Type) :=
| Returns (a : A)
| Throws (exn : string).
Arguments Returns {A} a.
Arguments Throws {A} exn.

(** *** A reference regular-expression engine

    [new RegExp(src, 'i')] for the fragment of the pattern language made of
    literal characters, [.], the postfix quantifiers [*], [+], [?] on a
    single character, and the anchors [^] (first) and [$] (last).  Sources
    outside the fragment are rejected.  The controller itself is embedded
    against an arbitrary engine (see [User.Model]); this one serves to run it
    on concrete data. *)

Inductive atom := Lit (c : ascii) | Dot.
Inductive quant := Once | Star | Plus | Opt.

Record regexp := mkRegexp {
  anchored_start : bool;
  terms : list (atom * quant);
  anchored_end : bool
}.

Definition quant_of (c : ascii) : option quant :=
  if Ascii.eqb c "*" then Some Star
  else if Ascii.eqb c "+" then Some Plus
  else if Ascii.eqb c "?" then Some Opt
  else None.

Definition is_syntax_char (c : ascii) : bool :=
  existsb (Ascii.eqb c) (list_ascii_of_string "\^$.*+?()[]{}|").

Definition atom_of (c : ascii) : option atom :=
  if Ascii.eqb c "." then Some Dot
  else if is_syntax_char c then None
  else Some (Lit c).

Definition cons_term (t : atom * quant)
  (r : option (list (atom * quant) * bool)) : option (list (atom * quant) * bool) :=
  match r with
  | Some (ts, e) => Some (t :: ts, e)
  | None => None
  end.

Fixpoint parse_terms (l : list ascii) : option (list (atom * quant) * bool) :=
  match l with
  | [] => Some ([], false)
  | c :: rest =>
    if Ascii.eqb c "$" then
      match rest with
      | [] => Some ([], true)
      | _ :: _ => None
      end
    else
      match atom_of c with
      | None => None
      | Some a =>
        match rest with
        | [] => Some ([(a, Once)], false)
        | q :: rest' =>
          match quant_of q with
          | None => cons_term (a, Once) (parse_terms rest)
          | Some k =>
            match rest' with
            | [] => Some ([(a, k)], false)
            | q' :: _ =>
              match quant_of q' with
              | Some _ => None
              | None => cons_term (a, k) (parse_terms rest')
              end
            end
          end
        end
      end
  end.

Definition compile (src : string) : option regexp :=
  match list_ascii_of_string src with
  | c :: rest =>
    if Ascii.eqb c "^" then
      match parse_terms rest with
      | Some (ts, e) => Some (mkRegexp true ts e)
      | None => None
      end
    else
      match parse_terms (c :: rest) with
      | Some (ts, e) => Some (mkRegexp false ts e)
      | None => None
      end
  | [] => Some (mkRegexp false [] false)
  end.

Definition is_line_terminator (c : ascii) : bool :=
  Ascii.eqb c "010" || Ascii.eqb c "013".

(** With the [i] flag two characters agree when their upper-case forms do. *)
Definition atom_matches (a : atom) (c : ascii) : bool :=
  match a with
  | Lit x => Ascii.eqb (upper_char x) (upper_char c)
  | Dot => negb (is_line_terminator c)
  end.

Fixpoint match_here (ts : list (atom * quant)) (at_end : bool) (s : list ascii) : bool :=
  match ts with
  | [] => if at_end then match s with [] => true | _ :: _ => false end else true
  | (a, k) :: ts' =>
    let star :=
      fix star (s : list ascii) : bool :=
        match_here ts' at_end s ||
        match s with
        | c :: s' => atom_matches a c && star s'
        | [] => false
        end in
    match k with
    | Once =>
      match s with
      | c :: s' => atom_matches a c && match_here ts' at_end s'
      | [] => false
      end
    | Opt =>
      match_here ts' at_end s ||
      match s with
      | c :: s' => atom_matches a c && match_here ts' at_end s'
      | [] => false
      end
    | Star => star s
    | Plus =>
      match s with
      | c :: s' => atom_matches a c && star s'
      | [] => false
      end
    end
  end.

Fixpoint search (ts : list (atom * quant)) (at_end : bool) (s : list ascii) : bool :=
  match_here ts at_end s ||
  match s with
  | _ :: s' => search ts at_end s'
  | [] => false
  end.

(** [re.test(s)] *)
Definition test (re : regexp) (s : string) : bool :=
  let cs := list_ascii_of_string s in
  if anchored_start re
  then match_here (terms re) (anchored_end re) cs
  else search (terms re) (anchored_end re) cs.

(** [new RegExp(src, 'i')]: [None] when the source is rejected. *)
Definition RegExp_i (src : string) : option (string -> bool) :=
  match compile src with
  | Some re => Some (test re)
  | None => None
  end.

(** *** [String.prototype.indexOf] *)

(** [t.startsWith(s)] *)
Fixpoint starts_with (t s : string) : bool :=
  match s with
  | EmptyString => true
  | String c s' =>
    match t with
    | EmptyString => false
    | String d t' => Ascii.eqb c d && starts_with t' s'
    end
  end.

(** [t] without its first [n] characters. *)
Fixpoint drop (n : nat) (t : string) : string :=
  match n with
  | 0 => t
  | S k =>
    match t with
    | EmptyString => EmptyString
    | String _ t' => drop k t'
    end
  end.

(** The least position at which [s] occurs in [t], counted from [from]. *)
Fixpoint first_occurrence (s t : string) (from : nat) : option nat :=
  if starts_with t s then Some from
  else
    match t with
    | EmptyString => None
    | String _ t' => first_occurrence s t' (S from)
    end.

(** [t.indexOf(s, position)]: the search starts at [position] clamped to
    [0 .. t.length]; the answer is -1 when [s] does not occur from there. *)
Definition indexOf (t s : string) (position : Z) : Z :=
  let len := Z.of_nat (String.length t) in
  let start := Z.to_nat (Z.min (Z.max position 0) len) in
  match first_occurrence s (drop start t) start with
  | Some k => Z.of_nat k
  | None => (-1)%Z
  end.

End JS.

(* ===================================================================== *)
(** ** Node-style callbacks                                              *)
(* ===================================================================== *)

(** Errors are plain objects with a [message]. *)
Record error := mkError { message : string }.

(** The arguments an error-first callback receives: [callback(err, res)].
    An argument that is [null], [undefined] or left out is [None]. *)
Record callback (R : Type) := Callback {
  err : option error;
  res : option R
}.
Arguments Callback {R} err res.
Arguments err {R} c.
Arguments res {R} c.

Definition truthy {A : Type} (o : option A) : bool :=
  match o with Some _ => true | None => false end.

(* ===================================================================== *)
(** ** The User model: documents, queries and updates                    *)
(* ===================================================================== *)

Module User.

Record Profile := mkProfile {
  name : option string
}.

(** A user document, with the fields the controller reads or writes. *)
Record doc := mkDoc {
  _id : nat;
  email : string;
  password : option string;          (* the hash; [None] once deleted or not selected *)
  verified : bool;
  profile : Profile;
  teamCode : option string;
  completedProfile : bool;           (* status.completedProfile *)
  lastUpdated : option Z;
  code : option string;
  title : option string
}.

(** [new User()] with a given identifier. *)
Definition fresh (id : nat) : doc :=
  mkDoc id "" None false (mkProfile None) None false None None None.

(** Conditions of a query object, one per key the controller uses. *)
Inductive cond :=
| IdEq (id : nat)                           (* _id: id *)
| VerifiedEq (b : bool)                     (* verified: b *)
| EmailEq (s : string)                      (* email: s *)
| EmailRe (re : string -> bool)             (* email: re *)
| ProfileNameRe (re : string -> bool)       (* 'profile.name': re *)
| TeamCodeRe (re : string -> bool).         (* teamCode: re *)

(** A query object: all of its keys must hold, or [$or] over a list. *)
Inductive filter :=
| All (cs : list cond)
| Or (cs : list cond).

Definition re_field (re : string -> bool) (v : option string) : bool :=
  match v with
  | Some s => re s
  | None => false
  end.

Definition holds (c : cond) (d : doc) : bool :=
  match c with
  | IdEq id => Nat.eqb (_id d) id
  | VerifiedEq b => Bool.eqb (verified d) b
  | EmailEq s => String.eqb (email d) s
  | EmailRe re => re (email d)
  | ProfileNameRe re => re_field re (name (profile d))
  | TeamCodeRe re => re_field re (teamCode d)
  end.

Definition matches (f : filter) (d : doc) : bool :=
  match f with
  | All cs => forallb (fun c => holds c d) cs
  | Or cs => existsb (fun c => holds c d) cs
  end.

(** The assignments of a [$set] update. *)
Inductive assignment :=
| SetPassword (h : string)
| SetVerified (b : bool)
| SetProfile (p : Profile)
| SetCompletedProfile (b : bool)
| SetLastUpdated (t : Z)
| SetCode (v : option string)
| SetTitle (v : option string).

Definition assign (d : doc) (a : assignment) : doc :=
  match a with
  | SetPassword h =>
    mkDoc (_id d) (email d) (Some h) (verified d) (profile d) (teamCode d)
          (completedProfile d) (lastUpdated d) (code d) (title d)
  | SetVerified b =>
    mkDoc (_id d) (email d) (password d) b (profile d) (teamCode d)
          (completedProfile d) (lastUpdated d) (code d) (title d)
  | SetProfile p =>
    mkDoc (_id d) (email d) (password d) (verified d) p (teamCode d)
          (completedProfile d) (lastUpdated d) (code d) (title d)
  | SetCompletedProfile b =>
    mkDoc (_id d) (email d) (password d) (verified d) (profile d) (teamCode d)
          b (lastUpdated d) (code d) (title d)
  | SetLastUpdated t =>
    mkDoc (_id d) (email d) (password d) (verified d) (profile d) (teamCode d)
          (completedProfile d) (Some t) (code d) (title d)
  | SetCode v =>
    mkDoc (_id d) (email d) (password d) (verified d) (profile d) (teamCode d)
          (completedProfile d) (lastUpdated d) v (title d)
  | SetTitle v =>
    mkDoc (_id d) (email d) (password d) (verified d) (profile d) (teamCode d)
          (completedProfile d) (lastUpdated d) (code d) v
  end.

(** [{ $set: { ... } }] *)
Definition set (upd : list assignment) (d : doc) : doc :=
  fold_left assign upd d.

Definition set_email (e : string) (d : doc) : doc :=
  mkDoc (_id d) e (password d) (verified d) (profile d) (teamCode d)
        (completedProfile d) (lastUpdated d) (code d) (title d).

(** [delete u.password]; also what a query returns for a field the schema
    does not select (the login path asks for it with [select('+password')]). *)
Definition delete_password (d : doc) : doc :=
  mkDoc (_id d) (email d) None (verified d) (profile d) (teamCode d)
        (completedProfile d) (lastUpdated d) (code d) (title d).

(** [doc.toJSON()]: the plain object with the same fields. *)
Definition toJSON (d : doc) : doc := d.

(** [select('password')]: of the document only the identifier and the
    password are loaded; the other fields are as in [new User()]. *)
Definition only_password (d : doc) : doc :=
  match password d with
  | Some h => assign (fresh (_id d)) (SetPassword h)
  | None => fresh (_id d)
  end.

(** *** Queries ([find(...).sort(...).skip(...).limit(...)]) *)

Record Query := mkQuery {
  q_filter : filter;
  q_plus_password : bool;      (* select('+password') *)
  q_sort_name_asc : bool;      (* sort({'profile.name': 'asc'}) *)
  q_skip : nat;
  q_limit : nat                (* 0: no limit *)
}.

Definition find (f : filter) : Query := mkQuery f false false 0 0.
Definition findOne (f : filter) : Query := find f.
Definition count (f : filter) : Query := find f.
Definition findById (id : nat) : Query := findOne (All [IdEq id]).

(** Modelled from the spec: [User.findOneByEmail] is a static of the User
    model, which is not among the sources.  The spec keys accounts by the
    normalized (lower-case) email, so the query selects the user whose stored
    email is the lower-cased argument. *)
Definition findOneByEmail (e : string) : Query :=
  findOne (All [EmailEq (JS.toLowerCase e)]).

Definition select_plus_password (q : Query) : Query :=
  mkQuery (q_filter q) true (q_sort_name_asc q) (q_skip q) (q_limit q).
Definition sort_profile_name_asc (q : Query) : Query :=
  mkQuery (q_filter q) (q_plus_password q) true (q_skip q) (q_limit q).
Definition skip (n : nat) (q : Query) : Query :=
  mkQuery (q_filter q) (q_plus_password q) (q_sort_name_asc q) n (q_limit q).
Definition limit (n : nat) (q : Query) : Query :=
  mkQuery (q_filter q) (q_plus_password q) (q_sort_name_asc q) (q_skip q) n.

(** Ascending order on [profile.name]: a missing name sorts first, names
    compare character by character. *)
Definition name_leb (a b : doc) : bool :=
  match name (profile a), name (profile b) with
  | None, _ => true
  | Some _, None => false
  | Some x, Some y => String.leb x y
  end.

Fixpoint insert_by_name (d : doc) (l : list doc) : list doc :=
  match l with
  | [] => [d]
  | x :: t => if name_leb d x then d :: x :: t else x :: insert_by_name d t
  end.

Fixpoint sort_by_name (l : list doc) : list doc :=
  match l with
  | [] => []
  | x :: t => insert_by_name x (sort_by_name t)
  end.

Definition take (n : nat) (l : list doc) : list doc :=
  match n with
  | 0 => l
  | _ => firstn n l
  end.

Definition projection (q : Query) (d : doc) : doc :=
  if q_plus_password q then d else delete_password d.

(** The documents a query selects from a collection, in result order. *)
Definition run (q : Query) (coll : list doc) : list doc :=
  let hits := List.filter (matches (q_filter q)) coll in
  let ordered := if q_sort_name_asc q then sort_by_name hits else hits in
  map (projection q) (take (q_limit q) (List.skipn (q_skip q) ordered)).

Definition run_one (q : Query) (coll : list doc) : option doc :=
  hd_error (run q coll).

Definition run_count (q : Query) (coll : list doc) : nat :=
  List.length (List.filter (matches (q_filter q)) coll).

(** [findOneAndUpdate(filter, update)]: the first matching document is
    updated in place; the others are untouched.  The second component is the
    matched document before ([new_ = false]) or after ([new_ = true]) the
    update, or [None] when none matches. *)
Fixpoint update_first (f : filter) (upd : list assignment) (new_ : bool)
  (coll : list doc) : list doc * option doc :=
  match coll with
  | [] => ([], None)
  | d :: t =>
    if matches f d
    then (set upd d :: t, Some (delete_password (if new_ then set upd d else d)))
    else let '(t', r) := update_first f upd new_ t in (d :: t', r)
  end.

(** The statics and methods of the User model that the controller calls and
    whose code is not among the sources, together with the two library calls
    it makes: they are parameters of the embedding. *)
Class Model := {
  (* validator.isEmail(s) *)
  isEmail : string -> bool;
  (* new RegExp(src, 'i'); None when the constructor throws *)
  RegExp_i : string -> option (string -> bool);
  (* User.generateHash(password) *)
  generateHash : JS.optstr -> string;
  (* user.checkPassword(password) *)
  checkPassword : doc -> JS.optstr -> bool;
  (* user.generateAuthToken() *)
  generateAuthToken : doc -> string;
  (* user.generateEmailVerificationToken() *)
  generateEmailVerificationToken : doc -> string;
  (* user.generateTempAuthToken() *)
  generateTempAuthToken : doc -> string;
  (* User.getByToken(token, cb): cb(err, user) *)
  getByToken : string -> list doc -> callback doc;
  (* User.verifyEmailVerificationToken(token, cb): cb(err, email) *)
  verifyEmailVerificationToken : string -> option error * JS.optstr;
  (* User.verifyTempAuthToken(token, cb): cb(err, id) *)
  verifyTempAuthToken : string -> option error * option nat;
  (* User.validateProfile(profile, cb): cb(err) *)
  validateProfile : Profile -> option error
}.

End User.

(* ===================================================================== *)
(** ** The world: store, mailer, console                                 *)
(* ===================================================================== *)

Inductive mail :=
| VerificationEmail (to_ token : string)
| PasswordResetEmail (to_ token : string)
| PasswordChangedEmail (to_ : string).

(** Accesses to the user collection, as they reach the store. *)
Inductive store_op :=
| Find                (* find / findOne *)
| Count               (* count *)
| Save                (* save *)
| FindOneAndUpdate.   (* findOneAndUpdate *)

Record world := mkWorld {
  users : list User.doc;        (* the collection, in insertion order *)
  outbox : list mail;           (* mails handed to the mailer, oldest first *)
  oplog : list store_op;        (* store accesses, oldest first *)
  console : list string;        (* console.log output *)
  clock : Z;                    (* Date.now() *)
  next_id : nat                 (* identifier of the next new document *)
}.

(** Computations over the world that return or throw. *)
Definition M (A : Type) : Type := world -> JS.completion (A * world).

Definition ret {A : Type} (a : A) : M A := fun w => JS.Returns (a, w).

Definition bind {A B : Type} (c : M A) (k : A -> M B) : M B :=
  fun w =>
    match c w with
    | JS.Returns (a, w') => k a w'
    | JS.Throws e => JS.Throws e
    end.

Definition throw {A : Type} (e : string) : M A := fun _ => JS.Throws e.

Declare Scope js_scope.
Delimit Scope js_scope with js.
Notation "x <- c ;; k" := (bind c (fun x => k))
  (at level 61, c at next level, right associativity) : js_scope.
Notation "c ;; k" := (bind c (fun _ => k))
  (at level 61, right associativity) : js_scope.
Local Open Scope js_scope.

Definition log_op (o : store_op) (w : world) : world :=
  mkWorld (users w) (outbox w) (oplog w ++ [o]) (console w) (clock w) (next_id w).

Definition with_users (us : list User.doc) (w : world) : world :=
  mkWorld us (outbox w) (oplog w) (console w) (clock w) (next_id w).

Module Store.

(** [query.exec(cb)] for a [find]. *)
Definition exec (q : User.Query) : M (list User.doc) :=
  fun w => JS.Returns (User.run q (users w), log_op Find w).

(** [query.exec(cb)] for a [findOne]. *)
Definition exec_one (q : User.Query) : M (option User.doc) :=
  fun w => JS.Returns (User.run_one q (users w), log_op Find w).

(** [query.exec(cb)] for a [count]. *)
Definition exec_count (q : User.Query) : M nat :=
  fun w => JS.Returns (User.run_count q (users w), log_op Count w).

Definition findOneAndUpdate (f : User.filter) (upd : list User.assignment)
  (new_ : bool) : M (option User.doc) :=
  fun w =>
    let '(us, r) := User.update_first f upd new_ (users w) in
    JS.Returns (r, log_op FindOneAndUpdate (with_users us w)).

(** [new User()] *)
Definition new_User : M User.doc :=
  fun w => JS.Returns (User.fresh (next_id w),
                       mkWorld (users w) (outbox w) (oplog w) (console w) (clock w)
                               (S (next_id w))).

(** [u.save(cb)]: the document joins the collection. *)
Definition save (u : User.doc) : M unit :=
  fun w => JS.Returns (tt, log_op Save (with_users (users w ++ [u]) w)).

Definition Date_now : M Z := fun w => JS.Returns (clock w, w).

Definition console_log (s : JS.optstr) : M unit :=
  fun w => JS.Returns (tt, mkWorld (users w) (outbox w) (oplog w)
                                   (console w ++ [JS.to_string s]) (clock w) (next_id w)).

End Store.

Module Mailer.

Definition send (m : mail) : M unit :=
  fun w => JS.Returns (tt, mkWorld (users w) (outbox w ++ [m]) (oplog w)
                                   (console w) (clock w) (next_id w)).

Definition sendVerificationEmail (e token : string) : M unit :=
  send (VerificationEmail e token).

(** The mailer reports delivery to the callback it is given. *)
Definition sendPasswordResetEmail (e token : string) : M (callback unit) :=
  send (PasswordResetEmail e token) ;; ret (Callback None (Some tt)).

Definition sendPasswordChangedEmail (e : string) : M unit :=
  send (PasswordChangedEmail e).

End Mailer.

(* ===================================================================== *)
(** ** UserController                                                    *)
(* ===================================================================== *)

Module UserController.

Import User.

(** [callback({ message: m })] *)
Definition failure {R : Type} (m : string) : callback R :=
  Callback (Some (mkError m)) None.

(** What [createUser] hands to its callback on success. *)
Record registration := mkRegistration {
  token : string;
  user : doc
}.

(** The request of [getPage].  [page] and [size] arrive as non-negative
    integers, on which [parseInt] is the identity; [text] may be missing. *)
Record page_query := mkPageQuery {
  query_page : nat;
  query_size : nat;
  query_text : JS.optstr
}.

Definition parseInt (n : nat) : nat := n.

Record page_result := mkPageResult {
  result_users : list doc;
  result_page : nat;
  result_size : nat;
  totalPages : JS.number
}.

Record submission := mkSubmission {
  submission_code : option string;
  submission_title : option string
}.

(** Tests a string if it ends with target s. *)
Definition endsWith (s test : string) : bool :=
  negb (Z.eqb (JS.indexOf test s
                 (Z.of_nat (String.length test) - Z.of_nat (String.length s)))
              (-1)).

(** [canRegister(email, password, callback)]: the pair is what the callback
    receives, [(err, valid)]. *)
Definition canRegister (email : string) (password : JS.optstr) : option error * bool :=
  match password with
  | None => (Some (mkError "Password must be 6 or more characters."), false)
  | Some p =>
    if JS.falsy password || (String.length p <? 6)%nat
    then (Some (mkError "Password must be 6 or more characters."), false)
    else (None, true)
  end.

Section Operations.

Context {model : Model}.

(** [callback(err, token, user)] *)
Definition loginWithToken (token : string) : M (option error * string * option doc) :=
  fun w =>
    let r := getByToken token (users w) in
    JS.Returns ((err r, token, res r), w).

(** [callback(err, token, user)]; the result pairs the token with the user
    as sent to the caller. *)
Definition loginWithPassword (email : string) (password : JS.optstr)
  : M (callback (string * doc)) :=
  if JS.falsy password then ret (failure "Please enter a password")
  else if negb (isEmail email) then ret (failure "Invalid email")
  else
    found <- Store.exec_one (select_plus_password (findOneByEmail email)) ;;
    match found with
    | None => ret (failure "We couldn't find you!")
    | Some user =>
      if negb (checkPassword user password)
      then ret (failure "That's not the right password.")
      else
        let token := generateAuthToken user in
        let u := toJSON user in
        let u := delete_password u in
        ret (Callback None (Some (token, u)))
    end.

(** The wildcard branch is [typeof email !== "string"]. *)
Definition createUser (email : JS.value) (password : JS.optstr)
  : M (callback registration) :=
  match email with
  | JS.Str e =>
    let email := JS.toLowerCase e in
    let '(err, valid) := canRegister email password in
    if truthy err || negb valid then ret (Callback err None)
    else
      found <- Store.exec_one (findOneByEmail email) ;;
      match found with
      | Some _ => ret (failure "An account for this email already exists.")
      | None =>
        u <- Store.new_User ;;
        let u := set_email email u in
        let u := assign u (SetPassword (generateHash password)) in
        Store.save u ;;
        let token := generateAuthToken u in
        let verificationToken := generateEmailVerificationToken u in
        Mailer.sendVerificationEmail email verificationToken ;;
        ret (Callback None (Some (mkRegistration token u)))
      end
  | _ => ret (failure "Email must be a string.")
  end.

(** Reading [searchText.length] throws when the query has no [text]; the
    array of users is never falsy, so the count always follows the find. *)
Definition getPage (query : page_query) : M (callback page_result) :=
  let page := query_page query in
  let size := parseInt (query_size query) in
  match query_text query with
  | None => throw "TypeError: Cannot read property 'length' of undefined"
  | Some searchText =>
    findQuery <-
      (if (0 <? String.length searchText)%nat then
         match RegExp_i searchText with
         | None => throw "SyntaxError: Invalid regular expression"
         | Some re => ret (Or [EmailRe re; ProfileNameRe re; TeamCodeRe re])
         end
       else ret (All [])) ;;
    users <- Store.exec
               (limit size (skip (page * size)
                  (sort_profile_name_asc (find findQuery)))) ;;
    count <- Store.exec_count (count findQuery) ;;
    ret (Callback None
           (Some (mkPageResult users page size (JS.ceil_div count size))))
  end.

(** [findOneAndUpdate] is given the caller's callback: it receives the
    updated document, or nothing when no document matches. *)
Definition updateProfileById (id : nat) (profile : Profile) : M (callback doc) :=
  match validateProfile profile with
  | Some _ => ret (failure "invalid profile")
  | None =>
    now <- Store.Date_now ;;
    r <- Store.findOneAndUpdate
           (All [IdEq id; VerifiedEq true])
           [SetLastUpdated now; SetProfile profile; SetCompletedProfile true]
           true ;;
    ret (Callback None r)
  end.

(** The continuation of the token verifier takes [(err, email)] and uses
    only [email]. *)
Definition verifyByToken (token : string) : M (callback doc) :=
  let '(_, email) := verifyEmailVerificationToken token in
  match RegExp_i ("^" ++ JS.to_string email ++ "$") with
  | None => throw "SyntaxError: Invalid regular expression"
  | Some re =>
    r <- Store.findOneAndUpdate (All [EmailRe re]) [SetVerified true] true ;;
    ret (Callback None r)
  end.

(** [if (err || !user) return callback(err)] with no store error is
    [callback(null)]. *)
Definition sendVerificationEmailById (id : nat) : M (callback doc) :=
  found <- Store.exec_one (findOne (All [IdEq id; VerifiedEq false])) ;;
  match found with
  | None => ret (Callback None None)
  | Some user =>
    let token := generateEmailVerificationToken user in
    Mailer.sendVerificationEmail (email user) token ;;
    ret (Callback None (Some user))
  end.

Definition sendPasswordResetEmail (email : string) : M (callback unit) :=
  found <- Store.exec_one (findOneByEmail email) ;;
  match found with
  | None => ret (Callback None None)
  | Some user =>
    let token := generateTempAuthToken user in
    Mailer.sendPasswordResetEmail email token
  end.

(** On success the result is again an object with a [message]. *)
Definition resetPassword (token password : JS.optstr) : M (callback error) :=
  match token, password with
  | Some tok, Some p =>
    if JS.falsy password || JS.falsy token then ret (failure "Bad arguments")
    else if (String.length p <? 6)%nat
    then ret (failure "Password must be 6 or more characters.")
    else
      let '(err, id) := verifyTempAuthToken tok in
      match err, id with
      | None, Some id =>
        found <- Store.findOneAndUpdate
                   (All [IdEq id]) [SetPassword (generateHash password)] false ;;
        match found with
        | None => ret (Callback None None)
        | Some user =>
          Mailer.sendPasswordChangedEmail (User.email user) ;;
          ret (Callback None (Some (mkError "Password successfully reset!")))
        end
      | _, _ => ret (Callback err None)
      end
  | _, _ => ret (failure "Bad arguments")
  end.

(** [console.log(submission.title)], then the update. *)
Definition pushSubmissionById (id : nat) (s : submission) : M (callback doc) :=
  Store.console_log (submission_title s) ;;
  r <- Store.findOneAndUpdate
         (All [IdEq id])
         [SetCode (submission_code s); SetTitle (submission_title s)]
         true ;;
  ret (Callback None r).

(** [User.find({}, callback)] *)
Definition getAll : M (callback (list doc)) :=
  users <- Store.exec (find (All [])) ;;
  ret (Callback None (Some users)).

(** [User.findById(id, callback)] *)
Definition getById (id : nat) : M (callback doc) :=
  r <- Store.exec_one (findById id) ;;
  ret (Callback None r).

(** Marked unused in the source.  The continuation of [findById] calls
    [user.checkPassword] without testing [user], which throws when no user
    has the identifier. *)
Definition changePassword (id : option nat) (oldPassword newPassword : JS.optstr)
  : M (callback doc) :=
  match id with
  | None => ret (failure "Bad arguments.")
  | Some id =>
    if JS.falsy oldPassword || JS.falsy newPassword
    then ret (failure "Bad arguments.")
    else
      found <- Store.exec_one (select_plus_password (findById id)) ;;
      match option_map only_password found with
      | None => throw "TypeError: Cannot read property 'checkPassword' of null"
      | Some user =>
        if checkPassword user oldPassword then
          r <- Store.findOneAndUpdate
                 (All [IdEq id]) [SetPassword (generateHash newPassword)] true ;;
          ret (Callback None r)
        else ret (failure "Incorrect password")
      end
  end.

End Operations.

End UserController.

(* ===================================================================== *)
(** ** The client state store (Redux reducer)                            *)
(* ===================================================================== *)

Module Redux.

(** Values held in the client state and carried by actions. *)
#[warnings="-register-all"]
Inductive value :=
| Undefined
| Null
| Bool (b : bool)
| Num (n : Z)
| Str (s : string)
| Arr (items : list value)
| Obj (props : list (string * value)).

(** An object is the list of its property definitions, latest first: a
    property reads as its latest definition. *)
Definition object := list (string * value).

Fixpoint get (k : string) (o : object) : option value :=
  match o with
  | [] => None
  | (k', v) :: o' => if String.eqb k k' then Some v else get k o'
  end.

(** [o.k]: a property that was never defined reads [undefined]. *)
Definition read (o : object) (k : string) : value :=
  match get k o with
  | Some v => v
  | None => Undefined
  end.

Definition truthy (v : value) : bool :=
  match v with
  | Undefined | Null => false
  | Bool b => b
  | Num n => negb (Z.eqb n 0)
  | Str s => negb (String.eqb s "")
  | Arr _ | Obj _ => true
  end.

(** [!v] *)
Definition not (v : value) : value := Bool (negb (truthy v)).

(** An object literal, its properties in source order. *)
Definition literal (props : list (string * value)) : object := rev props.

(** [Object.assign(target, ...sources)]: the properties of each source in
    turn are defined on the target, over what it had. *)
Definition Object_assign (target : object) (sources : list object) : object :=
  fold_left (fun t src => src ++ t) sources target.

Definition initialState : object :=
  literal [ ("playing", Bool false); ("token", Null); ("isFetching", Bool false);
            ("isError", Bool false); ("users", Arr []); ("currentUser", Obj []) ].

(** The actions, by their [type].  The type constants come from the
    [actions] module, which is not among the sources: they are taken to be
    pairwise distinct, one constructor each, and [UNKNOWN] stands for any
    other type (the [default] branch).  A payload field the action lacks is
    [Undefined]; [storedState] is an object or missing. *)
Inductive action :=
| SET_TOKEN (token : value)
| SET_USER (user : value)
| SET_USER_AND_TOKEN (user token : value)
| TOGGLE_PLAY
| SET_TIME (time : value)
| SET_VOLUME (volume : value)
| SET_DROP_DOWN (dropDownOpen : value)
| LOAD_STORED_STATE (storedState : option object)
| USERS_REQUEST
| USERS_SUCCESS (payload : value)
| USERS_FAILURE
| USER_BY_ID_REQUEST
| USER_BY_ID_SUCCESS (payload : value)
| USER_BY_ID_FAILURE
| UNKNOWN.

(** The default parameter [state = initialState]. *)
Definition or_initial (state : option object) : object :=
  match state with
  | Some s => s
  | None => initialState
  end.

Definition reducer (state : option object) (a : action) : option object :=
  let state := or_initial state in
  match a with
  | SET_TOKEN token =>
    Some (Object_assign [] [state; literal [("token", token)]])
  | SET_USER user =>
    Some (Object_assign [] [state; literal [("user", user)]])
  | SET_USER_AND_TOKEN user token =>
    Some (Object_assign [] [state; literal [("user", user); ("token", token)]])
  | TOGGLE_PLAY =>
    Some (Object_assign [] [state; literal [("playing", not (read state "playing"))]])
  | SET_TIME time =>
    Some (Object_assign [] [state; literal [("time", time)]])
  | SET_VOLUME volume =>
    Some (Object_assign [] [state; literal [("volume", volume)]])
  | SET_DROP_DOWN dropDownOpen =>
    Some (Object_assign [] [state; literal [("dropDownOpen", dropDownOpen)]])
  | LOAD_STORED_STATE storedState => storedState
  | USERS_REQUEST =>
    Some (Object_assign [] [state;
            literal [("isFetching", Bool true); ("isError", Bool false);
                     ("users", read state "users")]])
  | USERS_SUCCESS payload =>
    Some (Object_assign [] [state;
            literal [("isFetching", Bool false); ("isError", Bool false);
                     ("users", payload)]])
  | USERS_FAILURE =>
    Some (Object_assign [] [state;
            literal [("isFetching", Bool false); ("isError", Bool true);
                     ("users", Null)]])
  | USER_BY_ID_REQUEST =>
    Some (Object_assign [] [state;
            literal [("isFetching", Bool true); ("isError", Bool false);
                     ("currentUser", read state "currentUser")]])
  | USER_BY_ID_SUCCESS payload =>
    Some (Object_assign [] [state;
            literal [("isFetching", Bool false); ("isError", Bool false);
                     ("currentUser", payload)]])
  | USER_BY_ID_FAILURE =>
    Some (Object_assign [] [state;
            literal [("isFetching", Bool false); ("isError", Bool true);
                     ("currentUser", Null)]])
  | UNKNOWN => Some state
  end.

(** The properties an action defines. *)
Definition written (a : action) : list string :=
  match a with
  | SET_TOKEN _ => ["token"]
  | SET_USER _ => ["user"]
  | SET_USER_AND_TOKEN _ _ => ["user"; "token"]
  | TOGGLE_PLAY => ["playing"]
  | SET_TIME _ => ["time"]
  | SET_VOLUME _ => ["volume"]
  | SET_DROP_DOWN _ => ["dropDownOpen"]
  | LOAD_STORED_STATE _ => []
  | USERS_REQUEST | USERS_SUCCESS _ | USERS_FAILURE =>
    ["isFetching"; "isError"; "users"]
  | USER_BY_ID_REQUEST | USER_BY_ID_SUCCESS _ | USER_BY_ID_FAILURE =>
    ["isFetching"; "isError"; "currentUser"]
  | UNKNOWN => []
  end.

End Redux.

(* ===================================================================== *)
(** ** A reference instance of the model                                 *)
(* ===================================================================== *)

(** A transparent stand-in for the User model, used to run the controller on
    concrete data: hashes and tokens are tagged plain text, e-mail syntax is
    "contains an at sign", every profile is valid, and regular expressions
    are those of [JS.RegExp_i]. *)
Module Reference.

Import User.

Fixpoint strip_prefix (p s : string) : option string :=
  match p with
  | EmptyString => Some s
  | String a p' =>
    match s with
    | EmptyString => None
    | String b s' => if Ascii.eqb a b then strip_prefix p' s' else None
    end
  end.

Fixpoint unary (n : nat) : string :=
  match n with
  | 0 => ""
  | S k => String "I" (unary k)
  end.

Definition hash (p : JS.optstr) : string := "sha:" ++ JS.to_string p.

Definition check (d : doc) (p : JS.optstr) : bool :=
  match password d with
  | Some h => String.eqb h (hash p)
  | None => false
  end.

Definition verify_email_token (t : string) : option error * JS.optstr :=
  match strip_prefix "verify:" t with
  | Some e => (None, Some e)
  | None => (Some (mkError "jwt malformed"), None)
  end.

Definition verify_temp_token (t : string) : option error * option nat :=
  match strip_prefix "reset:" t with
  | Some n => (None, Some (String.length n))
  | None => (Some (mkError "jwt malformed"), None)
  end.

Definition by_token (t : string) (coll : list doc) : callback doc :=
  match strip_prefix "auth:" t with
  | Some n => Callback None (List.find (fun d => Nat.eqb (_id d) (String.length n)) coll)
  | None => Callback (Some (mkError "jwt malformed")) None
  end.

Definition has_at (s : string) : bool :=
  existsb (Ascii.eqb "@") (list_ascii_of_string s).

#[export] Instance model : Model := {|
  isEmail := has_at;
  RegExp_i := JS.RegExp_i;
  generateHash := hash;
  checkPassword := check;
  generateAuthToken := fun d => ("auth:" ++ unary (_id d))%string;
  generateEmailVerificationToken := fun d => ("verify:" ++ email d)%string;
  generateTempAuthToken := fun d => ("reset:" ++ unary (_id d))%string;
  getByToken := by_token;
  verifyEmailVerificationToken := verify_email_token;
  verifyTempAuthToken := verify_temp_token;
  validateProfile := fun _ => None
|}.

(** A world with no users, at time 0. *)
Definition empty : world := mkWorld [] [] [] [] 0%Z 1.

(** A stored user with the given identifier, email and verification flag. *)
Definition account (id : nat) (e : string) (v : bool) : doc :=
  mkDoc id e (Some (hash (Some "hunter22"))) v (mkProfile None) None false None None None.

Definition holding (us : list doc) : world := with_users us empty.

(** The test function of a pattern the reference engine accepts. *)
Definition pattern (src : string) : string -> bool :=
  match JS.RegExp_i src with
  | Some t => t
  | None => fun _ => false
  end.

End Reference.


(* ===================================================================== *)
(** ** Vocabulary of the statements                                      *)
(* ===================================================================== *)

Section Vocabulary.

Import User UserController.
Context {model : Model}.

(** The account a normalized email designates in a collection. *)
Definition account_of (e : string) (coll : list doc) : option doc :=
  List.find (fun d => String.eqb (email d) (JS.toLowerCase e)) coll.

(** A password [canRegister] turns down: missing, or under six characters. *)
Definition too_short (password : JS.optstr) : Prop :=
  match password with
  | None => True
  | Some p => String.length p < 6
  end.

(** The document [createUser] saves when it registers [e] with [password]
    in world [w]. *)
Definition registered (e : string) (password : JS.optstr) (w : world) : doc :=
  assign (set_email (JS.toLowerCase e) (fresh (next_id w)))
         (SetPassword (generateHash password)).

(** The messages [loginWithPassword] fails with. *)
Definition login_messages : list string :=
  [ "Please enter a password"; "Invalid email"; "We couldn't find you!";
    "That's not the right password." ].

(** Ascending order of profile names, as a relation. *)
Definition name_le (a b : doc) : Prop := name_leb a b = true.

(** The query object [getPage] builds from a search text: no condition for
    the empty text, otherwise the text as a case-insensitive pattern tried
    on the email, the profile name and the team code. *)
Definition search_filter (text : string) : option filter :=
  if (0 <? String.length text)%nat then
    match RegExp_i text with
    | Some re => Some (Or [EmailRe re; ProfileNameRe re; TeamCodeRe re])
    | None => None
    end
  else Some (All []).

(** The [$set] of a submission. *)
Definition submission_set (s : submission) : list assignment :=
  [SetCode (submission_code s); SetTitle (submission_title s)].

Definition has_id (id : nat) (d : doc) : bool := Nat.eqb (_id d) id.

(** The callback received an error object with a message that says
    something. *)
Definition reports_failure {R : Type} (cb : callback R) : Prop :=
  exists m, cb = failure m /\ m <> "".

(** The callback received neither an error nor a result. *)
Definition completes_empty {R : Type} (cb : callback R) : Prop :=
  err cb = None /\ res cb = None.

End Vocabulary.

(* ===================================================================== *)
(** ** Facts about strings, queries and updates                          *)
(* ===================================================================== *)

Lemma lower_char_idem (c : ascii) : JS.lower_char (JS.lower_char c) = JS.lower_char c.
Proof.
  destruct c as [b0 b1 b2 b3 b4 b5 b6 b7].
  destruct b0, b1, b2, b3, b4, b5, b6, b7; reflexivity.
Qed.

Lemma toLowerCase_idem (s : string) :
  JS.toLowerCase (JS.toLowerCase s) = JS.toLowerCase s.
Proof.
  induction s as [| c s IH]; simpl.
  - reflexivity.
  - rewrite lower_char_idem, IH. reflexivity.
Qed.

Lemma falsy_false_length (p : string) :
  JS.falsy (Some p) = false <-> String.length p <> 0.
Proof.
  simpl. rewrite Nat.eqb_neq. tauto.
Qed.

Section QueryFacts.

Import User.

(** The first hit of a projected, filtered list is the projection of the
    first element that passes the filter. *)
Lemma hd_error_map_filter {A B : Type} (g : A -> B) (p : A -> bool) (l : list A) :
  hd_error (map g (List.filter p l)) = option_map g (List.find p l).
Proof.
  induction l as [| x l IH]; simpl.
  - reflexivity.
  - destruct (p x); simpl; [reflexivity | exact IH].
Qed.

Lemma find_ext_bool {A : Type} (p q : A -> bool) (l : list A) :
  (forall x, p x = q x) -> List.find p l = List.find q l.
Proof.
  intros E. induction l as [| x l IH]; simpl; [reflexivity |].
  rewrite E, IH. reflexivity.
Qed.

Lemma run_one_findOneByEmail (e : string) (coll : list doc) :
  run_one (findOneByEmail e) coll = option_map delete_password (account_of e coll).
Proof.
  unfold run_one, run, account_of. simpl. rewrite hd_error_map_filter.
  f_equal. apply find_ext_bool. intros d. apply andb_true_r.
Qed.

Lemma run_one_findOneByEmail_password (e : string) (coll : list doc) :
  run_one (select_plus_password (findOneByEmail e)) coll = account_of e coll.
Proof.
  unfold run_one, run, account_of. simpl. rewrite hd_error_map_filter.
  rewrite (find_ext_bool _ (fun d => String.eqb (email d) (JS.toLowerCase e))).
  - destruct (List.find _ coll); reflexivity.
  - intros x. apply andb_true_r.
Qed.

Lemma account_of_lower (e : string) (coll : list doc) :
  account_of (JS.toLowerCase e) coll = account_of e coll.
Proof.
  unfold account_of. rewrite toLowerCase_idem. reflexivity.
Qed.

Lemma account_of_app_new (e : string) (coll : list doc) (u : doc) :
  email u = JS.toLowerCase e ->
  exists d, account_of e (coll ++ [u]) = Some d.
Proof.
  intros E. unfold account_of.
  induction coll as [| x coll IH]; simpl.
  - rewrite E, String.eqb_refl. eauto.
  - destruct (String.eqb (email x) (JS.toLowerCase e)); eauto.
Qed.

Lemma account_of_In (e : string) (coll : list doc) (d : doc) :
  account_of e coll = Some d -> In d coll /\ email d = JS.toLowerCase e.
Proof.
  unfold account_of. intros F. apply find_some in F.
  destruct F as [I E]. apply String.eqb_eq in E. tauto.
Qed.

End QueryFacts.

(* ===================================================================== *)
(** ** Registration                                                      *)
(* ===================================================================== *)

Section Registration.

Import User UserController.
Context {model : Model}.

Lemma canRegister_rejects (e : string) (password : JS.optstr) :
  too_short password ->
  canRegister e password =
    (Some (mkError "Password must be 6 or more characters."), false).
Proof.
  destruct password as [p |]; simpl; [| reflexivity].
  intros L. apply Nat.ltb_lt in L.
  unfold canRegister. simpl. simpl in L. rewrite L, orb_true_r. reflexivity.
Qed.

Lemma canRegister_accepts (e p : string) :
  6 <= String.length p -> canRegister e (Some p) = (None, true).
Proof.
  intros L. unfold canRegister. simpl.
  destruct (Nat.eqb_spec (String.length p) 0) as [Z | _]; [lia |].
  destruct (Nat.ltb_spec (String.length p) 6) as [Lt | _]; [lia |].
  reflexivity.
Qed.

(** The run of [createUser] on a fresh email and an acceptable password,
    step by step. *)
Lemma createUser_fresh (e p : string) (w : world) :
  6 <= String.length p ->
  account_of e (users w) = None ->
  let u := registered e (Some p) w in
  createUser (JS.Str e) (Some p) w =
    JS.Returns
      (Callback None (Some (mkRegistration (generateAuthToken u) u)),
       mkWorld (users w ++ [u])
               (outbox w ++
                  [VerificationEmail (JS.toLowerCase e)
                     (generateEmailVerificationToken u)])
               (oplog w ++ [Find] ++ [Save])
               (console w) (clock w) (S (next_id w))).
Proof.
  intros L F u. unfold createUser.
  rewrite (canRegister_accepts _ _ L). simpl.
  unfold bind at 1. unfold Store.exec_one at 1.
  rewrite run_one_findOneByEmail, account_of_lower, F. simpl.
  unfold bind, Store.new_User, Store.save, Mailer.sendVerificationEmail,
    Mailer.send, ret, log_op, with_users. simpl.
  rewrite <- app_assoc. reflexivity.
Qed.

Lemma createUser_existing (e : string) (password : JS.optstr) (w : world) (d : doc) :
  ~ too_short password ->
  account_of e (users w) = Some d ->
  createUser (JS.Str e) password w =
    JS.Returns (failure "An account for this email already exists.",
                log_op Find w).
Proof.
  intros L F. unfold createUser.
  destruct password as [p |]; [| exfalso; apply L; exact I].
  simpl in L. rewrite (canRegister_accepts _ p) by lia. simpl.
  unfold bind at 1. unfold Store.exec_one at 1.
  rewrite run_one_findOneByEmail, account_of_lower, F. reflexivity.
Qed.

(** C4.  Whatever the email, [createUser] with a missing password or one
    shorter than six characters calls back with an error that carries a
    descriptive message and leaves the whole world as it was: the store is
    neither read nor written (its operation log and its collection are
    unchanged) and no mail is sent, because the length check comes before
    the duplicate-email lookup and before any save. *)
Theorem createUser_short_password_fails_before_store
  (email : JS.value) (password : JS.optstr) (w : world) :
  too_short password ->
  exists m w',
    createUser email password w = JS.Returns (failure m, w') /\
    (m = "Password must be 6 or more characters." \/ m = "Email must be a string.") /\
    w' = w /\ oplog w' = oplog w /\ users w' = users w /\ outbox w' = outbox w.
Proof.
  intros Short.
  destruct email as [| | b | n | e];
    try (exists "Email must be a string.", w; repeat split; auto; fail).
  exists "Password must be 6 or more characters.", w.
  unfold createUser. rewrite (canRegister_rejects _ _ Short). simpl.
  repeat split; auto.
Qed.

(** C1.  On every successful registration (a string email with no account
    under its lower-case form, a password of six characters or more)
    [createUser] calls back with a session token and the new user, and that
    user object is the saved document itself: its [password] field is
    present and holds the stored hash.  The field is not removed before the
    callback, unlike in [loginWithPassword]. *)
Theorem createUser_returns_password_hash (e p : string) (w : world) :
  6 <= String.length p ->
  account_of e (users w) = None ->
  exists r w',
    createUser (JS.Str e) (Some p) w = JS.Returns (Callback None (Some r), w') /\
    token r = generateAuthToken (user r) /\
    In (user r) (users w') /\
    password (user r) = Some (generateHash (Some p)).
Proof.
  intros L F.
  pose proof (createUser_fresh e p w L F) as Run. cbv zeta in Run.
  eexists. eexists. split; [exact Run |].
  simpl. repeat split.
  apply in_or_app. right. left. reflexivity.
Qed.

(** C5.  Two registrations whose emails agree up to letter case, both with
    acceptable passwords, starting from a store with no account for that
    email: the first persists exactly one new user, stored under the
    lower-case email; the second calls back with the error "An account for
    this email already exists." and adds nothing to the collection or the
    outbox. *)
Theorem createUser_twice_succeeds_once (e1 e2 p1 p2 : string) (w : world) :
  JS.toLowerCase e1 = JS.toLowerCase e2 ->
  6 <= String.length p1 ->
  6 <= String.length p2 ->
  account_of e1 (users w) = None ->
  exists r1 w1 w2,
    createUser (JS.Str e1) (Some p1) w = JS.Returns (Callback None (Some r1), w1) /\
    users w1 = users w ++ [user r1] /\
    email (user r1) = JS.toLowerCase e1 /\
    createUser (JS.Str e2) (Some p2) w1 =
      JS.Returns (failure "An account for this email already exists.", w2) /\
    users w2 = users w1 /\
    outbox w2 = outbox w1.
Proof.
  intros Same L1 L2 F.
  pose proof (createUser_fresh e1 p1 w L1 F) as Run1. cbv zeta in Run1.
  set (u := registered e1 (Some p1) w) in *.
  destruct (account_of_app_new e2 (users w) u) as [d Hd].
  { rewrite <- Same. reflexivity. }
  eexists. eexists. eexists.
  split; [exact Run1 |]. split; [reflexivity |]. split; [reflexivity |].
  split.
  - apply createUser_existing with (d := d).
    + simpl. lia.
    + exact Hd.
  - split; reflexivity.
Qed.

End Registration.

(* ===================================================================== *)
(** ** Login by credentials                                              *)
(* ===================================================================== *)

Section Login.

Import User UserController.
Context {model : Model}.

Lemma loginWithPassword_lookup (e : string) (password : JS.optstr) (w : world) :
  JS.falsy password = false ->
  isEmail e = true ->
  loginWithPassword e password w =
    match account_of e (users w) with
    | None => JS.Returns (failure "We couldn't find you!", log_op Find w)
    | Some d =>
      if checkPassword d password
      then JS.Returns (Callback None (Some (generateAuthToken d, delete_password d)),
                       log_op Find w)
      else JS.Returns (failure "That's not the right password.", log_op Find w)
    end.
Proof.
  intros P E. unfold loginWithPassword. rewrite P, E. simpl.
  unfold bind, Store.exec_one. rewrite run_one_findOneByEmail_password.
  destruct (account_of e (users w)) as [d |]; [| reflexivity].
  destruct (checkPassword d password); reflexivity.
Qed.

(** C3.  [loginWithPassword] against the account stored for an email:
    - a password the stored hash does not match makes it fail, with one of
      its generic messages and without a token;
    - a missing (or empty) password, an email that is not well formed and an
      email with no account each make it fail with their message;
    - the right password for a well-formed, known email yields the token
      issued for that very user, and the user without its password field
      (same identifier), the collection being left as it was. *)
Theorem loginWithPassword_contract (e : string) (password : JS.optstr) (w : world) :
  (forall d,
     account_of e (users w) = Some d ->
     checkPassword d password = false ->
     exists m w',
       loginWithPassword e password w = JS.Returns (failure m, w') /\
       In m login_messages) /\
  (JS.falsy password = true ->
     loginWithPassword e password w =
       JS.Returns (failure "Please enter a password", w)) /\
  (JS.falsy password = false ->
   isEmail e = false ->
     loginWithPassword e password w = JS.Returns (failure "Invalid email", w)) /\
  (JS.falsy password = false ->
   isEmail e = true ->
   account_of e (users w) = None ->
     exists w',
       loginWithPassword e password w =
         JS.Returns (failure "We couldn't find you!", w')) /\
  (forall d,
     JS.falsy password = false ->
     isEmail e = true ->
     account_of e (users w) = Some d ->
     checkPassword d password = true ->
     exists u w',
       loginWithPassword e password w =
         JS.Returns (Callback None (Some (generateAuthToken d, u)), w') /\
       u = delete_password d /\
       _id u = _id d /\ email u = email d /\ User.password u = None /\
       users w' = users w).
Proof.
  repeat split.
  - intros d F C.
    destruct (JS.falsy password) eqn:P.
    + exists "Please enter a password", w. unfold loginWithPassword. rewrite P.
      split; [reflexivity | simpl; tauto].
    + destruct (isEmail e) eqn:E.
      * rewrite (loginWithPassword_lookup _ _ _ P E), F, C.
        eexists. eexists. split; [reflexivity | simpl; tauto].
      * exists "Invalid email", w. unfold loginWithPassword. rewrite P, E.
        split; [reflexivity | simpl; tauto].
  - intros P. unfold loginWithPassword. rewrite P. reflexivity.
  - intros P E. unfold loginWithPassword. rewrite P, E. reflexivity.
  - intros P E F. rewrite (loginWithPassword_lookup _ _ _ P E), F. eauto.
  - intros d P E F C. rewrite (loginWithPassword_lookup _ _ _ P E), F, C.
    eexists. eexists. repeat split.
Qed.

End Login.

(* ===================================================================== *)
(** ** Email verification                                                *)
(* ===================================================================== *)

Section UpdateFirst.

Import User.

Lemma update_first_none (f : filter) (upd : list assignment) (new_ : bool)
  (coll : list doc) :
  (forall x, In x coll -> matches f x = false) ->
  update_first f upd new_ coll = (coll, None).
Proof.
  induction coll as [| x coll IH]; intros N; simpl.
  - reflexivity.
  - rewrite (N x (or_introl eq_refl)).
    rewrite IH; [reflexivity |].
    intros y I. apply N. right. exact I.
Qed.

Lemma update_first_hit (f : filter) (upd : list assignment) (new_ : bool)
  (pre post : list doc) (d : doc) :
  (forall x, In x pre -> matches f x = false) ->
  matches f d = true ->
  update_first f upd new_ (pre ++ d :: post) =
    (pre ++ set upd d :: post,
     Some (delete_password (if new_ then set upd d else d))).
Proof.
  induction pre as [| x pre IH]; intros N H; simpl.
  - rewrite H. reflexivity.
  - rewrite (N x (or_introl eq_refl)).
    rewrite IH; [reflexivity | | exact H].
    intros y I. apply N. right. exact I.
Qed.

Lemma matches_email_re (re : string -> bool) (d : doc) :
  matches (All [EmailRe re]) d = re (email d).
Proof. simpl. apply andb_true_r. Qed.

End UpdateFirst.

Section Verification.

Import User UserController.
Context {model : Model}.

(** [verifyByToken] never looks at the error of the token verifier: it
    builds its pattern from whatever came as the email and updates. *)
Lemma verifyByToken_run (token : string) (e : option error) (a : JS.optstr)
  (re : string -> bool) (w : world) :
  verifyEmailVerificationToken token = (e, a) ->
  RegExp_i ("^" ++ JS.to_string a ++ "$") = Some re ->
  verifyByToken token w =
    JS.Returns
      (Callback None (snd (update_first (All [EmailRe re]) [SetVerified true] true (users w))),
       log_op FindOneAndUpdate
         (with_users (fst (update_first (All [EmailRe re]) [SetVerified true] true (users w))) w)).
Proof.
  intros V R. unfold verifyByToken. rewrite V, R.
  unfold bind, Store.findOneAndUpdate, ret.
  destruct (update_first _ _ _ (users w)) as [us r]. reflexivity.
Qed.

(** C2.  When the verifier rejects the token (it calls back with an error
    and no email), [verifyByToken] goes on with the text "undefined" as the
    email: it never passes the error on, it marks verified the first user
    whose email matches the pattern ^undefined$, and when there is no such
    user it calls back with neither an error nor a user. *)
Theorem verifyByToken_rejected_token (token : string) (e : error)
  (re : string -> bool) (w : world) :
  verifyEmailVerificationToken token = (Some e, None) ->
  RegExp_i "^undefined$" = Some re ->
  (forall pre d post,
     users w = pre ++ d :: post ->
     (forall x, In x pre -> re (email x) = false) ->
     re (email d) = true ->
     exists w',
       verifyByToken token w =
         JS.Returns
           (Callback None (Some (delete_password (assign d (SetVerified true)))), w') /\
       users w' = pre ++ assign d (SetVerified true) :: post) /\
  ((forall x, In x (users w) -> re (email x) = false) ->
     exists w',
       verifyByToken token w = JS.Returns (Callback None None, w') /\
       users w' = users w).
Proof.
  intros V R. split.
  - intros pre d post U N H.
    rewrite (verifyByToken_run token (Some e) None re w V R), U.
    rewrite update_first_hit.
    + eexists. split; reflexivity.
    + intros x I. rewrite matches_email_re. apply N. exact I.
    + rewrite matches_email_re. exact H.
  - intros N.
    rewrite (verifyByToken_run token (Some e) None re w V R).
    rewrite update_first_none.
    + eexists. split; reflexivity.
    + intros x I. rewrite matches_email_re. apply N. exact I.
Qed.

(** C6.  When the verifier accepts the token and decodes it to an email,
    the email is used as the source of a regular expression: the user marked
    verified is the first one, in store order, whose email matches that
    pattern, whether or not it equals the decoded email up to letter case;
    all other users, among them any later user with the decoded email
    itself, keep their flag. *)
Theorem verifyByToken_marks_first_pattern_match (token a : string)
  (re : string -> bool) (w : world) (pre post : list doc) (d : doc) :
  verifyEmailVerificationToken token = (None, Some a) ->
  RegExp_i ("^" ++ a ++ "$") = Some re ->
  users w = pre ++ d :: post ->
  (forall x, In x pre -> re (email x) = false) ->
  re (email d) = true ->
  exists w',
    verifyByToken token w =
      JS.Returns
        (Callback None (Some (delete_password (assign d (SetVerified true)))), w') /\
    users w' = pre ++ assign d (SetVerified true) :: post.
Proof.
  intros V R U N H.
  rewrite (verifyByToken_run token None (Some a) re w V R), U.
  rewrite update_first_hit.
  - eexists. split; reflexivity.
  - intros x I. rewrite matches_email_re. apply N. exact I.
  - rewrite matches_email_re. exact H.
Qed.

End Verification.

(* ===================================================================== *)
(** ** Paginated listing                                                 *)
(* ===================================================================== *)

Section Sorting.

Import User.

Lemma name_leb_total (a b : doc) : name_leb a b = false -> name_leb b a = true.
Proof.
  unfold name_leb.
  destruct (name (profile a)) as [x |], (name (profile b)) as [y |];
    try reflexivity; try discriminate.
  intros H. destruct (String.leb_total x y) as [T | T]; congruence.
Qed.

Lemma insert_by_name_perm (d : doc) (l : list doc) :
  Permutation (insert_by_name d l) (d :: l).
Proof.
  induction l as [| x l IH]; simpl.
  - apply Permutation_refl.
  - destruct (name_leb d x).
    + apply Permutation_refl.
    + apply perm_trans with (x :: d :: l).
      * apply perm_skip. exact IH.
      * apply perm_swap.
Qed.

Lemma sort_by_name_perm (l : list doc) : Permutation (sort_by_name l) l.
Proof.
  induction l as [| x l IH]; simpl.
  - apply perm_nil.
  - apply perm_trans with (x :: sort_by_name l).
    + apply insert_by_name_perm.
    + apply perm_skip. exact IH.
Qed.

Lemma insert_by_name_hd (d x : doc) (l : list doc) :
  name_le x d -> HdRel name_le x l -> HdRel name_le x (insert_by_name d l).
Proof.
  intros Hxd Hhd. destruct l as [| y l]; simpl.
  - constructor. exact Hxd.
  - destruct (name_leb d y); constructor.
    + exact Hxd.
    + inversion Hhd. assumption.
Qed.

Lemma insert_by_name_sorted (d : doc) (l : list doc) :
  Sorted name_le l -> Sorted name_le (insert_by_name d l).
Proof.
  induction 1 as [| x l Hs IH Hhd]; simpl.
  - repeat constructor.
  - destruct (name_leb d x) eqn:C.
    + constructor.
      * constructor; assumption.
      * constructor. exact C.
    + constructor.
      * exact IH.
      * apply insert_by_name_hd; [apply name_leb_total; exact C | exact Hhd].
Qed.

Lemma sort_by_name_sorted (l : list doc) : Sorted name_le (sort_by_name l).
Proof.
  induction l as [| x l IH]; simpl.
  - constructor.
  - apply insert_by_name_sorted. exact IH.
Qed.

End Sorting.

Lemma ceil_div_spec (n s : nat) :
  0 < s ->
  exists k, JS.ceil_div n s = JS.Fin k /\ n <= k * s /\ k * s < n + s.
Proof.
  intros Hs. destruct s as [| s']; [lia |].
  exists ((n + S s' - 1) / S s'). split; [reflexivity |].
  pose proof (Nat.div_mod_eq (n + S s' - 1) (S s')) as D.
  pose proof (Nat.mod_upper_bound (n + S s' - 1) (S s')) as B.
  nia.
Qed.

Section Listing.

Import User UserController.
Context {model : Model}.

Lemma getPage_run (text : string) (f : filter) (p s : nat) (w : world) :
  search_filter text = Some f ->
  getPage (mkPageQuery p s (Some text)) w =
    JS.Returns
      (Callback None
         (Some (mkPageResult
                  (map delete_password
                       (take s (List.skipn (p * s)
                                  (sort_by_name (List.filter (matches f) (users w))))))
                  p s
                  (JS.ceil_div (List.length (List.filter (matches f) (users w))) s))),
       log_op Count (log_op Find w)).
Proof.
  unfold search_filter, getPage, parseInt. simpl.
  destruct (0 <? String.length text)%nat.
  - destruct (RegExp_i text) as [re |]; [| discriminate].
    intros F. injection F as <-. reflexivity.
  - intros F. injection F as <-. reflexivity.
Qed.

Lemma filter_all (l : list doc) : List.filter (matches (All [])) l = l.
Proof.
  induction l as [| x l IH]; simpl; [reflexivity | rewrite IH; reflexivity].
Qed.

(** C8.  For a search text whose query object is [f], a page size [s > 0]
    and a page index [p], with N the number of stored users that match [f]:
    [getPage] answers without error; [totalPages] is the least integer [k]
    with [N <= k * s], that is ceil(N / s); and the users returned are
    those at positions [p * s] to [p * s + s - 1] of the matching users put
    in ascending order of profile name (a sorted rearrangement of the
    matching users), each as the store hands it out, without its password
    hash. *)
Theorem getPage_slice_and_totalPages (text : string) (f : filter) (p s : nat)
  (w : world) :
  0 < s ->
  search_filter text = Some f ->
  let matching := List.filter (matches f) (users w) in
  exists r w',
    getPage (mkPageQuery p s (Some text)) w = JS.Returns (Callback None (Some r), w') /\
    (exists k, totalPages r = JS.Fin k /\
               List.length matching <= k * s /\ k * s < List.length matching + s) /\
    result_users r =
      map delete_password (firstn s (List.skipn (p * s) (sort_by_name matching))) /\
    Sorted name_le (sort_by_name matching) /\
    Permutation (sort_by_name matching) matching.
Proof.
  intros Hs F matching.
  eexists. eexists. split; [apply (getPage_run text f p s w F) |].
  simpl. split; [| split; [| split]].
  - apply ceil_div_spec. exact Hs.
  - destruct s; [lia | reflexivity].
  - apply sort_by_name_sorted.
  - apply sort_by_name_perm.
Qed.

(** C9.  A request with no [text] property makes [getPage] throw when it
    reads the length of the missing text: no callback is made and no page is
    produced, whatever the page index and size.  Only a request whose text
    is the empty string lists all users without a search condition. *)
Theorem getPage_without_text_throws (p s : nat) (w : world) :
  getPage (mkPageQuery p s None) w =
    JS.Throws "TypeError: Cannot read property 'length' of undefined" /\
  exists r w',
    getPage (mkPageQuery p s (Some "")) w = JS.Returns (Callback None (Some r), w') /\
    result_users r =
      map delete_password (take s (List.skipn (p * s) (sort_by_name (users w)))).
Proof.
  split; [reflexivity |].
  eexists. eexists. split.
  - apply (getPage_run "" (All []) p s w). reflexivity.
  - simpl. rewrite filter_all. reflexivity.
Qed.

End Listing.

(* ===================================================================== *)
(** ** Submissions                                                       *)
(* ===================================================================== *)

Section Submissions.

Import User UserController.
Context {model : Model}.

Lemma matches_id (id : nat) (d : doc) : matches (All [IdEq id]) d = has_id id d.
Proof. simpl. apply andb_true_r. Qed.

Lemma submission_set_overwrites (s1 s2 : submission) (d : doc) :
  set (submission_set s2) (set (submission_set s1) d) = set (submission_set s2) d.
Proof. reflexivity. Qed.

Lemma submission_set_keeps_id (s : submission) (d : doc) :
  _id (set (submission_set s) d) = _id d.
Proof. reflexivity. Qed.

Lemma push_users_twice (id : nat) (s1 s2 : submission) (coll : list doc) :
  update_first (All [IdEq id]) (submission_set s2) true
    (fst (update_first (All [IdEq id]) (submission_set s1) true coll)) =
  update_first (All [IdEq id]) (submission_set s2) true coll.
Proof.
  induction coll as [| d coll IH].
  - reflexivity.
  - cbn [update_first]. rewrite matches_id.
    destruct (has_id id d) eqn:H.
    + cbn [fst update_first]. rewrite matches_id.
      unfold has_id in *. rewrite submission_set_keeps_id, H.
      rewrite submission_set_overwrites. reflexivity.
    + destruct (update_first _ (submission_set s1) true coll) as [t1 r1] eqn:U1.
      cbn [fst update_first]. rewrite matches_id, H.
      simpl fst in IH. rewrite IH. reflexivity.
Qed.

Lemma push_find (id : nat) (s : submission) (coll : list doc) :
  List.find (has_id id)
    (fst (update_first (All [IdEq id]) (submission_set s) true coll)) =
  option_map (set (submission_set s)) (List.find (has_id id) coll).
Proof.
  induction coll as [| d coll IH].
  - reflexivity.
  - cbn [update_first]. rewrite matches_id.
    destruct (has_id id d) eqn:H.
    + cbn [fst List.find]. unfold has_id in *.
      rewrite submission_set_keeps_id, H. reflexivity.
    + destruct (update_first _ (submission_set s) true coll) as [t r] eqn:U.
      cbn [fst List.find]. rewrite H. exact IH.
Qed.

Lemma pushSubmissionById_run (id : nat) (s : submission) (w : world) :
  exists w',
    pushSubmissionById id s w =
      JS.Returns
        (Callback None
           (snd (update_first (All [IdEq id]) (submission_set s) true (users w))),
         w') /\
    users w' = fst (update_first (All [IdEq id]) (submission_set s) true (users w)).
Proof.
  unfold pushSubmissionById, bind, Store.console_log, Store.findOneAndUpdate, ret.
  simpl. fold (submission_set s).
  destruct (update_first _ _ _ (users w)) as [us r].
  eexists. split; reflexivity.
Qed.

(** C10.  Pushing submission [s1] and then [s2] for the same user id leaves
    the collection exactly as pushing [s2] alone does, with the same answer
    to the second callback; the stored user with that id, if there is one,
    is the original document with [code] and [title] set to those of [s2],
    nothing of [s1] remaining. *)
Theorem pushSubmissionById_second_write_wins (id : nat) (s1 s2 : submission)
  (w : world) :
  exists cb1 w1 cb2 w2 w',
    pushSubmissionById id s1 w = JS.Returns (cb1, w1) /\
    pushSubmissionById id s2 w1 = JS.Returns (cb2, w2) /\
    pushSubmissionById id s2 w = JS.Returns (cb2, w') /\
    users w2 = users w' /\
    List.find (has_id id) (users w2) =
      option_map (fun d => assign (assign d (SetCode (submission_code s2)))
                                  (SetTitle (submission_title s2)))
                 (List.find (has_id id) (users w)) /\
    List.Forall (fun d => code d = submission_code s2 /\
                          title d = submission_title s2)
      (match List.find (has_id id) (users w2) with Some d => [d] | None => [] end).
Proof.
  destruct (pushSubmissionById_run id s1 w) as [w1 [R1 U1]].
  destruct (pushSubmissionById_run id s2 w1) as [w2 [R2 U2]].
  destruct (pushSubmissionById_run id s2 w) as [w' [R' U']].
  rewrite U1, push_users_twice in R2, U2.
  assert (F : List.find (has_id id) (users w2) =
              option_map (set (submission_set s2)) (List.find (has_id id) (users w))).
  { rewrite U2. apply push_find. }
  eexists. exists w1. eexists. exists w2, w'.
  split; [exact R1 |]. split; [exact R2 |]. split; [exact R' |].
  split; [congruence |]. split; [exact F |].
  rewrite F. destruct (List.find (has_id id) (users w)) as [d |]; simpl.
  - constructor; [split; reflexivity | constructor].
  - constructor.
Qed.

End Submissions.

(* ===================================================================== *)
(** ** How failures reach the callback                                   *)
(* ===================================================================== *)

Section Failures.

Import User UserController.
Context {model : Model}.

Lemma failure_reports {R : Type} (m : string) :
  m <> "" -> reports_failure (@failure R m).
Proof. intros N. exists m. split; [reflexivity | exact N]. Qed.

Lemma createUser_failure_reported (email : JS.value) (password : JS.optstr)
  (w w' : world) (cb : callback registration) :
  createUser email password w = JS.Returns (cb, w') ->
  res cb = None ->
  reports_failure cb.
Proof.
  intros Run NoRes.
  destruct email as [| | b | n | e];
    try (injection Run as <- _; apply failure_reports; discriminate).
  destruct password as [p |].
  - destruct (Nat.ltb_spec (String.length p) 6) as [Short | Long].
    + unfold createUser in Run.
      rewrite (canRegister_rejects _ (Some p) Short) in Run.
      injection Run as <- _. apply failure_reports. discriminate.
    + destruct (account_of e (users w)) as [d |] eqn:F.
      * rewrite (createUser_existing e (Some p) w d) in Run; [| simpl; lia | exact F].
        injection Run as <- _. apply failure_reports. discriminate.
      * rewrite (createUser_fresh e p w Long F) in Run.
        injection Run as <- _. discriminate.
  - unfold createUser in Run. rewrite (canRegister_rejects _ None I) in Run.
    injection Run as <- _. apply failure_reports. discriminate.
Qed.

Lemma loginWithPassword_failure_reported (e : string) (password : JS.optstr)
  (w w' : world) (cb : callback (string * doc)) :
  loginWithPassword e password w = JS.Returns (cb, w') ->
  res cb = None ->
  reports_failure cb.
Proof.
  intros Run NoRes.
  destruct (JS.falsy password) eqn:P.
  - unfold loginWithPassword in Run. rewrite P in Run.
    injection Run as <- _. apply failure_reports. discriminate.
  - destruct (isEmail e) eqn:E.
    + rewrite (loginWithPassword_lookup e password w P E) in Run.
      destruct (account_of e (users w)) as [d |].
      * destruct (checkPassword d password); injection Run as <- _.
        -- discriminate.
        -- apply failure_reports. discriminate.
      * injection Run as <- _. apply failure_reports. discriminate.
    + unfold loginWithPassword in Run. rewrite P, E in Run.
      injection Run as <- _. apply failure_reports. discriminate.
Qed.

Lemma updateProfileById_unmatched (id : nat) (p : Profile) (w : world) :
  validateProfile p = None ->
  (forall x, In x (users w) -> _id x = id -> verified x = false) ->
  updateProfileById id p w =
    JS.Returns (Callback None None, log_op FindOneAndUpdate w).
Proof.
  intros V N. unfold updateProfileById. rewrite V.
  unfold bind, Store.Date_now, Store.findOneAndUpdate, ret.
  rewrite update_first_none.
  - destruct w; reflexivity.
  - intros x I. simpl.
    destruct (Nat.eqb_spec (_id x) id) as [E | _]; [| reflexivity].
    rewrite (N x I E). reflexivity.
Qed.

Lemma sendPasswordResetEmail_unknown (e : string) (w : world) :
  account_of e (users w) = None ->
  sendPasswordResetEmail e w = JS.Returns (Callback None None, log_op Find w).
Proof.
  intros F. unfold sendPasswordResetEmail, bind, Store.exec_one.
  rewrite run_one_findOneByEmail, F. reflexivity.
Qed.

(** Whenever [createUser] or [loginWithPassword] ends without a result,
    its callback has received an error object with a non-empty message, and
    [updateProfileById] reports a profile that fails validation in the same
    way.  But [updateProfileById] on an id that matches no verified user,
    and [sendPasswordResetEmail] on an email with no account, complete
    their callback with neither an error nor a result. *)
Theorem failures_reported_except_not_found :
  (forall email password w w' cb,
     createUser email password w = JS.Returns (cb, w') ->
     res cb = None -> reports_failure cb) /\
  (forall e password w w' cb,
     loginWithPassword e password w = JS.Returns (cb, w') ->
     res cb = None -> reports_failure cb) /\
  (forall id p w,
     validateProfile p <> None ->
     updateProfileById id p w = JS.Returns (failure "invalid profile", w)) /\
  (forall id p w,
     validateProfile p = None ->
     (forall x, In x (users w) -> _id x = id -> verified x = false) ->
     exists cb w',
       updateProfileById id p w = JS.Returns (cb, w') /\
       completes_empty cb /\ users w' = users w) /\
  (forall e w,
     account_of e (users w) = None ->
     exists cb w',
       sendPasswordResetEmail e w = JS.Returns (cb, w') /\
       completes_empty cb /\ outbox w' = outbox w).
Proof.
  split; [| split; [| split; [| split]]].
  - intros. eapply createUser_failure_reported; eassumption.
  - intros. eapply loginWithPassword_failure_reported; eassumption.
  - intros id p w V. unfold updateProfileById.
    destruct (validateProfile p); [reflexivity | contradiction].
  - intros id p w V N. rewrite (updateProfileById_unmatched id p w V N).
    eexists. eexists. repeat split.
  - intros e w F. rewrite (sendPasswordResetEmail_unknown e w F).
    eexists. eexists. repeat split.
Qed.

End Failures.

(* ===================================================================== *)
(** ** Effects of the operations on the store and the mailer             *)
(* ===================================================================== *)

Section StoreFacts.

Import User.

(** What an update keeps of a document it is applied to. *)
Definition kept (d d' : doc) : Prop :=
  _id d' = _id d /\ email d' = email d /\ (verified d = true -> verified d' = true).

(** The assignment does not clear the verification flag. *)
Definition benign (a : assignment) : bool :=
  match a with
  | SetVerified false => false
  | _ => true
  end.

Lemma kept_refl (d : doc) : kept d d.
Proof. repeat split; auto. Qed.

Lemma kept_trans (a b c : doc) : kept a b -> kept b c -> kept a c.
Proof.
  intros [I1 [E1 V1]] [I2 [E2 V2]]. repeat split; try congruence. auto.
Qed.

Lemma assign_kept (d : doc) (a : assignment) : benign a = true -> kept d (assign d a).
Proof.
  destruct a as [h | b | p | b | t | v | v]; intros B; repeat split; auto.
  destruct b; [reflexivity | discriminate B].
Qed.

Lemma set_kept (upd : list assignment) (d : doc) :
  forallb benign upd = true -> kept d (set upd d).
Proof.
  unfold set. revert d. induction upd as [| a upd IH]; intros d B; simpl.
  - apply kept_refl.
  - simpl in B. apply andb_true_iff in B. destruct B as [Ba Bu].
    apply kept_trans with (assign d a); [apply assign_kept; exact Ba | apply IH; exact Bu].
Qed.

Lemma update_first_kept (f : filter) (upd : list assignment) (new_ : bool)
  (coll : list doc) :
  forallb benign upd = true ->
  Forall2 kept coll (fst (update_first f upd new_ coll)).
Proof.
  intros B. induction coll as [| d coll IH]; simpl.
  - constructor.
  - destruct (matches f d).
    + simpl. constructor; [apply set_kept; exact B |].
      clear IH. induction coll; constructor; [apply kept_refl | assumption].
    + destruct (update_first f upd new_ coll) as [t r]. simpl in *.
      constructor; [apply kept_refl | exact IH].
Qed.

Lemma Forall2_kept_refl (coll : list doc) : Forall2 kept coll coll.
Proof. induction coll; constructor; [apply kept_refl | assumption]. Qed.

Lemma Forall2_kept_emails (a b : list doc) :
  Forall2 kept a b -> map email b = map email a.
Proof.
  induction 1 as [| x y a b [_ [E _]] _ IH]; simpl; [reflexivity | congruence].
Qed.

(** The result and the effect of [findOneAndUpdate], in one equation. *)
Lemma findOneAndUpdate_run (f : filter) (upd : list assignment) (new_ : bool)
  (w : world) :
  Store.findOneAndUpdate f upd new_ w =
    JS.Returns (snd (update_first f upd new_ (users w)),
                log_op FindOneAndUpdate
                  (with_users (fst (update_first f upd new_ (users w))) w)).
Proof.
  unfold Store.findOneAndUpdate.
  destruct (update_first f upd new_ (users w)); reflexivity.
Qed.

(** Applying the same update again changes nothing more, provided the
    update does not alter which documents the filter selects and is itself
    idempotent. *)
Lemma update_first_again (f : filter) (upd : list assignment) (new_ : bool)
  (coll : list doc) :
  (forall d, matches f (set upd d) = matches f d) ->
  (forall d, set upd (set upd d) = set upd d) ->
  update_first f upd true (fst (update_first f upd new_ coll)) =
    (fst (update_first f upd new_ coll), snd (update_first f upd true coll)).
Proof.
  intros Stable Idem. induction coll as [| d coll IH]; simpl.
  - reflexivity.
  - destruct (matches f d) eqn:H; simpl.
    + rewrite Stable, H, Idem. reflexivity.
    + destruct (update_first f upd new_ coll) as [t r].
      destruct (update_first f upd true coll) as [t' r'].
      simpl in *. rewrite H, IH. reflexivity.
Qed.

Lemma find_map_id (id : nat) (coll : list doc) :
  run_one (select_plus_password (findById id)) coll =
    List.find (has_id id) coll.
Proof.
  unfold run_one, run. simpl. rewrite hd_error_map_filter.
  rewrite (find_ext_bool _ (has_id id)).
  - destruct (List.find _ coll); reflexivity.
  - intros x. apply andb_true_r.
Qed.

Lemma find_app_none {A : Type} (p : A -> bool) (a b : list A) :
  List.find p a = None -> List.find p (a ++ b) = List.find p b.
Proof.
  induction a as [| x a IH]; simpl; [reflexivity |].
  destruct (p x); [discriminate | exact IH].
Qed.

Lemma find_split {A : Type} (p : A -> bool) (l : list A) (x : A) :
  List.find p l = Some x ->
  exists pre post,
    l = pre ++ x :: post /\ (forall y, In y pre -> p y = false) /\ p x = true.
Proof.
  induction l as [| y l IH]; simpl; [discriminate |].
  destruct (p y) eqn:P.
  - intros E. injection E as <-. exists [], l. repeat split; auto.
    intros z [].
  - intros F. destruct (IH F) as [pre [post [E [N H]]]].
    exists (y :: pre), post. repeat split; auto.
    + simpl. f_equal. exact E.
    + intros z [<- | I]; auto.
Qed.

Lemma find_none_forall {A : Type} (p : A -> bool) (l : list A) :
  List.find p l = None -> forall y, In y l -> p y = false.
Proof.
  intros F y I. destruct (p y) eqn:P; [| reflexivity].
  exfalso. revert F. induction l as [| z l IH]; simpl; [destruct I |].
  destruct I as [<- | I]; [rewrite P; discriminate |].
  destruct (p z); [discriminate | auto].
Qed.

End StoreFacts.

Section PasswordReset.

Import User UserController.
Context {model : Model}.

(** The hash stored by [generateHash] is one [checkPassword] accepts. *)
Definition hashing_sound : Prop :=
  forall (d : doc) (q : JS.optstr),
    password d = Some (generateHash q) -> checkPassword d q = true.

Lemma long_not_falsy (p : string) : 6 <= String.length p -> JS.falsy (Some p) = false.
Proof. intros L. apply falsy_false_length. lia. Qed.

Lemma resetPassword_checked (tok p : string) (id : nat) (w : world) :
  JS.falsy (Some tok) = false ->
  6 <= String.length p ->
  verifyTempAuthToken tok = (None, Some id) ->
  resetPassword (Some tok) (Some p) w =
    let U := update_first (All [IdEq id]) [SetPassword (generateHash (Some p))]
                          false (users w) in
    let w1 := log_op FindOneAndUpdate (with_users (fst U) w) in
    match snd U with
    | None => JS.Returns (Callback None None, w1)
    | Some user =>
      JS.Returns
        (Callback None (Some (mkError "Password successfully reset!")),
         mkWorld (users w1) (outbox w1 ++ [PasswordChangedEmail (email user)])
                 (oplog w1) (console w1) (clock w1) (next_id w1))
    end.
Proof.
  intros T L V. unfold resetPassword.
  rewrite (long_not_falsy p L), T.
  destruct (Nat.ltb_spec (String.length p) 6) as [Lt | _]; [lia |].
  rewrite V. unfold bind at 1. cbn [orb]. cbv beta iota.
  rewrite findOneAndUpdate_run.
  destruct (snd (update_first _ _ false (users w))); reflexivity.
Qed.

(** X2.  [resetPassword] turns the request down, leaving the world as it
    was (no store access, no mail): with "Bad arguments" when the token or
    the password is missing or empty; with "Password must be 6 or more
    characters." when both are there and the password is shorter than six
    characters; and, when both are acceptable and the token verifier
    rejects the token, with the very error the verifier gave. *)
Theorem resetPassword_rejects_before_store (token password : JS.optstr) (w : world) :
  (JS.falsy token = true \/ JS.falsy password = true ->
     resetPassword token password w = JS.Returns (failure "Bad arguments", w)) /\
  (forall p,
     JS.falsy token = false ->
     password = Some p ->
     0 < String.length p < 6 ->
     resetPassword token password w =
       JS.Returns (failure "Password must be 6 or more characters.", w)) /\
  (forall tok p e r,
     token = Some tok ->
     JS.falsy token = false ->
     password = Some p ->
     6 <= String.length p ->
     verifyTempAuthToken tok = (Some e, r) ->
     resetPassword token password w = JS.Returns (Callback (Some e) None, w)).
Proof.
  split; [| split].
  - intros Bad. unfold resetPassword.
    destruct token as [tok |]; [| destruct password; reflexivity].
    destruct password as [p |]; [| reflexivity].
    destruct Bad as [B | B]; rewrite B; [rewrite orb_true_r |]; reflexivity.
  - intros p T -> L. unfold resetPassword.
    destruct token as [tok |]; [| discriminate T].
    rewrite T. replace (JS.falsy (Some p)) with false
      by (symmetry; apply falsy_false_length; lia).
    cbn [orb]. destruct (Nat.ltb_spec (String.length p) 6) as [_ | Ge]; [reflexivity | lia].
  - intros tok p e r -> T -> L V. unfold resetPassword.
    rewrite T, (long_not_falsy p L). cbn [orb].
    destruct (Nat.ltb_spec (String.length p) 6) as [Lt | _]; [lia |].
    rewrite V. reflexivity.
Qed.

(** X3.  With a non-empty token that the verifier decodes to an identifier
    and a password of six characters or more: if a user has that
    identifier, the first such user gets the hash of the new password and
    nothing else in the collection changes, one password-changed mail goes
    to that user's stored email, and the callback receives the success
    message; if no user has it, the callback receives neither error nor
    result, and nothing is stored or sent. *)
Theorem resetPassword_stores_new_hash (tok p : string) (id : nat) (w : world) :
  JS.falsy (Some tok) = false ->
  6 <= String.length p ->
  verifyTempAuthToken tok = (None, Some id) ->
  (forall pre d post,
     users w = pre ++ d :: post ->
     (forall x, In x pre -> has_id id x = false) ->
     has_id id d = true ->
     exists w',
       resetPassword (Some tok) (Some p) w =
         JS.Returns (Callback None (Some (mkError "Password successfully reset!")), w') /\
       users w' = pre ++ assign d (SetPassword (generateHash (Some p))) :: post /\
       outbox w' = outbox w ++ [PasswordChangedEmail (email d)]) /\
  ((forall x, In x (users w) -> has_id id x = false) ->
     exists w',
       resetPassword (Some tok) (Some p) w = JS.Returns (Callback None None, w') /\
       users w' = users w /\ outbox w' = outbox w).
Proof.
  intros T L V. rewrite (resetPassword_checked tok p id w T L V). cbv zeta.
  split.
  - intros pre d post U N H. rewrite U.
    rewrite update_first_hit.
    + eexists. split; [reflexivity |]. split; reflexivity.
    + intros x I. rewrite matches_id. apply N. exact I.
    + rewrite matches_id. exact H.
  - intros N. rewrite update_first_none.
    + eexists. split; [reflexivity |]. split; reflexivity.
    + intros x I. rewrite matches_id. apply N. exact I.
Qed.

Lemma account_of_own_email (d : doc) (coll : list doc) :
  account_of (email d) coll = Some d ->
  String.eqb (email d) (JS.toLowerCase (email d)) = true.
Proof.
  intros F. apply find_some in F. tauto.
Qed.

Lemma account_of_update (id : nat) (upd : list assignment) (new_ : bool)
  (d : doc) (coll : list doc) :
  forallb benign upd = true ->
  List.find (has_id id) coll = Some d ->
  account_of (email d) coll = Some d ->
  account_of (email d) (fst (update_first (All [IdEq id]) upd new_ coll)) =
    Some (set upd d).
Proof.
  intros B Fid Fem.
  pose proof (account_of_own_email d coll Fem) as Own.
  revert Fid Fem. induction coll as [| x coll IH]; simpl; [discriminate |].
  intros Fid Fem. rewrite andb_true_r. fold (has_id id x).
  destruct (has_id id x) eqn:H.
  - injection Fid as ->. simpl. unfold account_of. simpl.
    destruct (set_kept upd d B) as [_ [E _]]. rewrite E, Own. reflexivity.
  - unfold account_of in Fem. simpl in Fem.
    destruct (String.eqb (email x) (JS.toLowerCase (email d))) eqn:Ex.
    + injection Fem as ->. apply find_some in Fid. destruct Fid as [_ Hd].
      congruence.
    + destruct (update_first (All [IdEq id]) upd new_ coll) as [t r] eqn:U.
      simpl. unfold account_of. simpl. rewrite Ex.
      apply (IH Fid Fem).
Qed.

(** X4.  After a password reset for the user that a token designates, that
    user logs in with the new password: provided the model's hashing is
    sound, the user's email is well formed and is the one the account is
    found under, [loginWithPassword] with the stored email and the new
    password succeeds and returns that user. *)
Theorem resetPassword_then_login (tok p : string) (id : nat) (d : doc) (w : world) :
  hashing_sound ->
  JS.falsy (Some tok) = false ->
  6 <= String.length p ->
  verifyTempAuthToken tok = (None, Some id) ->
  List.find (has_id id) (users w) = Some d ->
  account_of (email d) (users w) = Some d ->
  isEmail (email d) = true ->
  exists w1 t u w2,
    resetPassword (Some tok) (Some p) w =
      JS.Returns (Callback None (Some (mkError "Password successfully reset!")), w1) /\
    loginWithPassword (email d) (Some p) w1 =
      JS.Returns (Callback None (Some (t, u)), w2) /\
    _id u = id /\ email u = email d.
Proof.
  intros Sound T L V Fid Fem E.
  pose proof (account_of_update id [SetPassword (generateHash (Some p))] false
                d (users w) eq_refl Fid Fem) as Acc.
  rewrite (resetPassword_checked tok p id w T L V). cbv zeta.
  destruct (find_split _ _ _ Fid) as [pre [post [U [N H]]]].
  assert (S : snd (update_first (All [IdEq id])
                     [SetPassword (generateHash (Some p))] false (users w)) =
              Some (delete_password d)).
  { rewrite U, update_first_hit; [reflexivity | |].
    - intros x I. rewrite matches_id. apply N. exact I.
    - rewrite matches_id. exact H. }
  rewrite S.
  eexists. eexists. eexists. eexists. split; [reflexivity |].
  rewrite (loginWithPassword_lookup _ _ _ (long_not_falsy p L) E).
  cbn [users log_op with_users]. rewrite Acc.
  rewrite Sound by reflexivity.
  split; [reflexivity |]. split; [| reflexivity].
  simpl. unfold has_id in H. apply Nat.eqb_eq in H. exact H.
Qed.

End PasswordReset.

Section Mails.

Import User UserController.
Context {model : Model}.

(** The user has the identifier and is not verified yet. *)
Definition awaiting (id : nat) (d : doc) : bool :=
  has_id id d && negb (verified d).

Lemma find_all_false {A : Type} (p : A -> bool) (l : list A) :
  (forall x, In x l -> p x = false) -> List.find p l = None.
Proof.
  induction l as [| y l IH]; intros N; simpl; [reflexivity |].
  rewrite (N y (or_introl eq_refl)). apply IH. intros x I. apply N. right. exact I.
Qed.

Lemma run_one_awaiting (id : nat) (coll : list doc) :
  run_one (findOne (All [IdEq id; VerifiedEq false])) coll =
    option_map delete_password (List.find (awaiting id) coll).
Proof.
  unfold run_one, run. simpl. rewrite hd_error_map_filter. f_equal.
  apply find_ext_bool. intros d. unfold awaiting, has_id. simpl.
  destruct (Nat.eqb (_id d) id), (verified d); reflexivity.
Qed.

(** X6.  [sendVerificationEmailById] mails only a user that is still
    unverified: for the first unverified user with the identifier it sends
    one verification mail to that user's stored email and calls back with
    the user; when every user with the identifier is already verified, or
    none has it, it sends nothing and calls back with neither error nor
    user.  The collection is never changed. *)
Theorem sendVerificationEmailById_only_unverified (id : nat) (w : world) :
  (forall d,
     List.find (awaiting id) (users w) = Some d ->
     exists w',
       sendVerificationEmailById id w =
         JS.Returns (Callback None (Some (delete_password d)), w') /\
       users w' = users w /\
       outbox w' = outbox w ++
         [VerificationEmail (email d)
            (generateEmailVerificationToken (delete_password d))]) /\
  ((forall x, In x (users w) -> _id x = id -> verified x = true) ->
     exists w',
       sendVerificationEmailById id w = JS.Returns (Callback None None, w') /\
       users w' = users w /\ outbox w' = outbox w).
Proof.
  unfold sendVerificationEmailById, bind, Store.exec_one.
  rewrite run_one_awaiting. split.
  - intros d F. rewrite F. simpl. eexists. repeat split.
  - intros V. rewrite find_all_false.
    + simpl. eexists. repeat split.
    + intros x I. unfold awaiting, has_id.
      destruct (Nat.eqb_spec (_id x) id) as [E | _]; [| reflexivity].
      rewrite (V x I E). reflexivity.
Qed.

(** X7.  For an email that has an account, [sendPasswordResetEmail] hands
    the mailer exactly one reset mail, addressed to the email as the caller
    typed it and carrying the temporary token generated for the account
    found under its lower-case form; the collection is not changed. *)
Theorem sendPasswordResetEmail_known (e : string) (d : doc) (w : world) :
  account_of e (users w) = Some d ->
  exists w',
    sendPasswordResetEmail e w = JS.Returns (Callback None (Some tt), w') /\
    users w' = users w /\
    outbox w' = outbox w ++
      [PasswordResetEmail e (generateTempAuthToken (delete_password d))].
Proof.
  intros F. unfold sendPasswordResetEmail, bind, Store.exec_one.
  rewrite run_one_findOneByEmail, F. simpl.
  eexists. repeat split.
Qed.

(** The two ways [createUser] can end. *)
Lemma createUser_cases (email : JS.value) (password : JS.optstr)
  (w w' : world) (cb : callback registration) :
  createUser email password w = JS.Returns (cb, w') ->
  (res cb = None /\ users w' = users w /\ outbox w' = outbox w) \/
  (exists e p,
     email = JS.Str e /\ password = Some p /\
     account_of e (users w) = None /\
     cb = Callback None
            (Some (mkRegistration (generateAuthToken (registered e (Some p) w))
                                  (registered e (Some p) w))) /\
     users w' = users w ++ [registered e (Some p) w] /\
     outbox w' = outbox w ++
       [VerificationEmail (JS.toLowerCase e)
          (generateEmailVerificationToken (registered e (Some p) w))]).
Proof.
  intros Run.
  destruct email as [| | b | n | e];
    try (injection Run as <- <-; left; repeat split; fail).
  destruct password as [p |].
  - destruct (Nat.ltb_spec (String.length p) 6) as [Short | Long].
    + unfold createUser in Run.
      rewrite (canRegister_rejects _ (Some p) Short) in Run.
      injection Run as <- <-. left. repeat split.
    + destruct (account_of e (users w)) as [d |] eqn:F.
      * rewrite (createUser_existing e (Some p) w d) in Run; [| simpl; lia | exact F].
        injection Run as <- <-. left. repeat split.
      * rewrite (createUser_fresh e p w Long F) in Run.
        injection Run as <- <-. right. exists e, p.
        repeat split. exact F.
  - unfold createUser in Run. rewrite (canRegister_rejects _ None I) in Run.
    injection Run as <- <-. left. repeat split.
Qed.

(** X13.  A call of [createUser] either fails and then changes neither the
    collection nor the outbox, or it adds exactly one user at the end of
    the collection, unverified, under the lower-cased email, which had no
    account before, and sends exactly one verification mail, to that
    lower-cased address with the verification token of the new user. *)
Theorem createUser_all_or_nothing (email : JS.value) (password : JS.optstr)
  (w w' : world) (cb : callback registration) :
  createUser email password w = JS.Returns (cb, w') ->
  (res cb = None /\ users w' = users w /\ outbox w' = outbox w) \/
  (exists e r,
     email = JS.Str e /\ cb = Callback None (Some r) /\
     account_of e (users w) = None /\
     users w' = users w ++ [user r] /\
     User.email (user r) = JS.toLowerCase e /\
     verified (user r) = false /\
     outbox w' = outbox w ++
       [VerificationEmail (JS.toLowerCase e)
          (generateEmailVerificationToken (user r))]).
Proof.
  intros Run. destruct (createUser_cases _ _ _ _ _ Run)
    as [Fail | [e [p [E [P [F [C [U O]]]]]]]].
  - left. exact Fail.
  - right. exists e. eexists. subst cb. repeat split; try eassumption; reflexivity.
Qed.

(** X5.  A user who has just registered can log in: provided the model's
    hashing is sound, after a successful [createUser] with email [e] and
    password [p], [loginWithPassword] with any well-formed spelling [e'] of
    the email that agrees with [e] up to letter case, and [p], succeeds and
    returns the registered user without its password. *)
Theorem createUser_then_login (e e' p : string) (w : world) :
  hashing_sound ->
  6 <= String.length p ->
  account_of e (users w) = None ->
  JS.toLowerCase e' = JS.toLowerCase e ->
  isEmail e' = true ->
  exists r w1 t w2,
    createUser (JS.Str e) (Some p) w = JS.Returns (Callback None (Some r), w1) /\
    loginWithPassword e' (Some p) w1 =
      JS.Returns (Callback None (Some (t, delete_password (user r))), w2) /\
    users w2 = users w ++ [user r].
Proof.
  intros Sound L F Same E.
  rewrite (createUser_fresh e p w L F). cbv zeta.
  eexists. eexists. eexists. eexists. split; [reflexivity |].
  rewrite (loginWithPassword_lookup _ _ _ (long_not_falsy p L) E).
  cbn [users].
  assert (A : account_of e' (users w ++ [registered e (Some p) w]) =
              Some (registered e (Some p) w)).
  { unfold account_of in *. rewrite Same. rewrite find_app_none by exact F.
    simpl. rewrite String.eqb_refl. reflexivity. }
  rewrite A. rewrite Sound by reflexivity.
  split; reflexivity.
Qed.

End Mails.

Section Updates.

Import User UserController.
Context {model : Model}.

(** The user has the identifier and is verified. *)
Definition verified_with (id : nat) (d : doc) : bool :=
  has_id id d && verified d.

Lemma matches_id_verified (id : nat) (d : doc) :
  matches (All [IdEq id; VerifiedEq true]) d = verified_with id d.
Proof.
  unfold verified_with, has_id. simpl.
  destruct (Nat.eqb (_id d) id), (verified d); reflexivity.
Qed.

(** X9.  With a profile that passes validation, [updateProfileById] changes
    the first verified user with the identifier and no other document: that
    user gets the profile, the completed-profile mark and the current time
    as last update, and keeps its identifier, email, password, verification
    flag and submission; the callback receives the updated user without its
    password. *)
Theorem updateProfileById_updates_verified_user (id : nat) (p : Profile)
  (w : world) (pre post : list doc) (d : doc) :
  validateProfile p = None ->
  users w = pre ++ d :: post ->
  (forall x, In x pre -> verified_with id x = false) ->
  verified_with id d = true ->
  exists d' w',
    updateProfileById id p w =
      JS.Returns (Callback None (Some (delete_password d')), w') /\
    users w' = pre ++ d' :: post /\
    profile d' = p /\ completedProfile d' = true /\
    lastUpdated d' = Some (clock w) /\
    _id d' = _id d /\ email d' = email d /\ password d' = password d /\
    verified d' = verified d /\ code d' = code d /\ title d' = title d.
Proof.
  intros V U N H. unfold updateProfileById. rewrite V.
  unfold bind at 1. unfold Store.Date_now. unfold bind at 1.
  rewrite findOneAndUpdate_run, U.
  rewrite update_first_hit.
  - eexists. eexists. split; [reflexivity |]. repeat split.
  - intros x I. rewrite matches_id_verified. apply N. exact I.
  - rewrite matches_id_verified. exact H.
Qed.

Lemma find_id_update (id : nat) (upd : list assignment) (new_ : bool)
  (coll : list doc) :
  forallb benign upd = true ->
  List.find (has_id id) (fst (update_first (All [IdEq id]) upd new_ coll)) =
    option_map (set upd) (List.find (has_id id) coll).
Proof.
  intros B. induction coll as [| d coll IH].
  - reflexivity.
  - cbn [update_first]. rewrite matches_id.
    destruct (has_id id d) eqn:H.
    + cbn [fst List.find]. unfold has_id in *.
      destruct (set_kept upd d B) as [I _]. rewrite I, H. reflexivity.
    + destruct (update_first _ upd new_ coll) as [t r] eqn:U.
      cbn [fst List.find]. rewrite H. exact IH.
Qed.

(** X8.  [changePassword] with an identifier and two non-empty passwords:
    when no user has the identifier it throws instead of calling back; when
    the old password is not the user's, it fails with "Incorrect password"
    and leaves the collection untouched; when it is, the first user with
    the identifier ends with the hash of the new password.  Without an
    identifier or with an empty password it fails with "Bad arguments."
    before any store access. *)
Theorem changePassword_behaviour (id : nat) (old new : JS.optstr) (w : world) :
  (JS.falsy old = true \/ JS.falsy new = true ->
     changePassword (Some id) old new w = JS.Returns (failure "Bad arguments.", w)) /\
  changePassword None old new w = JS.Returns (failure "Bad arguments.", w) /\
  (JS.falsy old = false -> JS.falsy new = false ->
   List.find (has_id id) (users w) = None ->
     changePassword (Some id) old new w =
       JS.Throws "TypeError: Cannot read property 'checkPassword' of null") /\
  (forall d,
     JS.falsy old = false -> JS.falsy new = false ->
     List.find (has_id id) (users w) = Some d ->
     checkPassword (only_password d) old = false ->
     exists w',
       changePassword (Some id) old new w =
         JS.Returns (failure "Incorrect password", w') /\
       users w' = users w) /\
  (forall d,
     JS.falsy old = false -> JS.falsy new = false ->
     List.find (has_id id) (users w) = Some d ->
     checkPassword (only_password d) old = true ->
     exists r w',
       changePassword (Some id) old new w = JS.Returns (Callback None r, w') /\
       List.find (has_id id) (users w') =
         Some (assign d (SetPassword (generateHash new)))).
Proof.
  split; [| split; [| split; [| split]]].
  - intros Bad. unfold changePassword.
    destruct (JS.falsy old), (JS.falsy new); try reflexivity.
    destruct Bad; discriminate.
  - reflexivity.
  - intros Fo Fn F. unfold changePassword. rewrite Fo, Fn. simpl.
    unfold bind, Store.exec_one. rewrite find_map_id, F. reflexivity.
  - intros d Fo Fn F C. unfold changePassword. rewrite Fo, Fn. simpl.
    unfold bind, Store.exec_one. rewrite find_map_id, F. simpl. rewrite C.
    eexists. split; reflexivity.
  - intros d Fo Fn F C. unfold changePassword. rewrite Fo, Fn. simpl.
    unfold bind at 1. unfold Store.exec_one. rewrite find_map_id, F.
    cbn [option_map]. rewrite C. unfold bind. rewrite findOneAndUpdate_run.
    eexists. eexists. split; [reflexivity |].
    cbn [users log_op with_users].
    rewrite find_id_update by reflexivity. rewrite F. reflexivity.
Qed.

(** X14.  Verifying with the same token a second time changes nothing more:
    whenever [verifyByToken] returns, running it again on the resulting
    world returns the same callback arguments and leaves the collection as
    the first run left it. *)
Theorem verifyByToken_twice (token : string) (w w1 : world) (cb : callback doc) :
  verifyByToken token w = JS.Returns (cb, w1) ->
  exists w2,
    verifyByToken token w1 = JS.Returns (cb, w2) /\
    users w2 = users w1.
Proof.
  intros Run.
  destruct (verifyEmailVerificationToken token) as [e a] eqn:V.
  destruct (RegExp_i ("^" ++ JS.to_string a ++ "$")) as [re |] eqn:R.
  - rewrite (verifyByToken_run token e a re w V R) in Run.
    injection Run as <- <-.
    rewrite (verifyByToken_run token e a re _ V R).
    cbn [users log_op with_users].
    rewrite update_first_again; [| reflexivity | reflexivity].
    eexists. split; reflexivity.
  - unfold verifyByToken in Run. rewrite V, R in Run. discriminate Run.
Qed.

(** What [pushSubmissionById] may change in a document. *)
Definition same_but_submission (id : nat) (a b : doc) : Prop :=
  _id b = _id a /\ email b = email a /\ password b = password a /\
  verified b = verified a /\ profile b = profile a /\
  teamCode b = teamCode a /\
  (has_id id a = false -> b = a).

Lemma push_frame (id : nat) (s : submission) (coll : list doc) :
  Forall2 (same_but_submission id) coll
    (fst (update_first (All [IdEq id]) (submission_set s) true coll)).
Proof.
  assert (Same : forall l, Forall2 (same_but_submission id) l l).
  { induction l; constructor; [repeat split; auto | assumption]. }
  induction coll as [| d coll IH]; simpl.
  - constructor.
  - rewrite andb_true_r. fold (has_id id d).
    destruct (has_id id d) eqn:H; simpl.
    + constructor; [| apply Same].
      repeat split; auto. congruence.
    + destruct (update_first _ (submission_set s) true coll) as [t r].
      simpl in *. constructor; [repeat split; auto | exact IH].
Qed.

(** X15.  [pushSubmissionById] writes the title to the console, sends no
    mail, and leaves every document's identifier, email, password,
    verification flag, profile and team code as they were; documents with
    another identifier are untouched.  When no user has the identifier the
    callback receives neither error nor user and the collection is
    unchanged. *)
Theorem pushSubmissionById_touches_only_submission (id : nat) (s : submission)
  (w : world) :
  exists cb w',
    pushSubmissionById id s w = JS.Returns (cb, w') /\
    console w' = console w ++ [JS.to_string (submission_title s)] /\
    outbox w' = outbox w /\
    Forall2 (same_but_submission id) (users w) (users w') /\
    ((forall x, In x (users w) -> has_id id x = false) ->
       cb = Callback None None /\ users w' = users w).
Proof.
  unfold pushSubmissionById, bind, Store.console_log, ret.
  rewrite findOneAndUpdate_run. fold (submission_set s).
  eexists. eexists. split; [reflexivity |].
  cbn [console outbox users log_op with_users].
  split; [reflexivity |]. split; [reflexivity |]. split.
  - apply push_frame.
  - intros N. rewrite update_first_none; [split; reflexivity |].
    intros x I. rewrite matches_id. apply N. exact I.
Qed.

End Updates.

Section Paging.

Import User UserController.
Context {model : Model}.

(** What [getPage] answers for page [p] of size [s] of a search. *)
Definition page_result_of (text : string) (p s : nat) (w : world)
  : option page_result :=
  match getPage (mkPageQuery p s (Some text)) w with
  | JS.Returns (cb, _) => res cb
  | JS.Throws _ => None
  end.

Definition page_users (text : string) (p s : nat) (w : world) : list doc :=
  match page_result_of text p s w with
  | Some r => result_users r
  | None => []
  end.

Lemma chunks_concat {A : Type} (s k : nat) (l : list A) :
  0 < s ->
  List.length l <= k * s ->
  List.concat (map (fun p => firstn s (List.skipn (p * s) l)) (seq 0 k)) = l.
Proof.
  intros Hs. revert l. induction k as [| k IH]; intros l L.
  - simpl in *. destruct l; [reflexivity | simpl in L; lia].
  - replace (seq 0 (S k)) with (0 :: map S (seq 0 k))
      by (simpl; rewrite seq_shift; reflexivity).
    cbn [map List.concat]. rewrite map_map.
    replace (List.skipn (0 * s) l) with l by reflexivity.
    transitivity (firstn s l ++ List.skipn s l); [| apply firstn_skipn].
    f_equal.
    assert (H : List.length (List.skipn s l) <= k * s).
    { rewrite length_skipn. simpl in L. lia. }
    etransitivity; [| exact (IH (List.skipn s l) H)].
    f_equal. apply map_ext. intros p.
    rewrite skipn_skipn. f_equal. f_equal. lia.
Qed.

Lemma page_users_slice (text : string) (f : filter) (p s : nat) (w : world) :
  0 < s ->
  search_filter text = Some f ->
  page_users text p s w =
    firstn s (List.skipn (p * s)
      (map delete_password (sort_by_name (List.filter (matches f) (users w))))).
Proof.
  intros Hs F. unfold page_users, page_result_of.
  rewrite (getPage_run text f p s w F). simpl.
  destruct s; [lia |]. unfold take.
  rewrite <- firstn_map, <- skipn_map. reflexivity.
Qed.

(** X12.  For a search the engine accepts and a page size [s > 0], every
    page reports the same [totalPages], say [k]; the pages 0 to [k - 1] put
    end to end are exactly the matching users in ascending order of profile
    name, so each matching user is on one page and none is repeated or
    skipped; every page at index [k] or beyond is empty; and no page holds
    more than [s] users. *)
Theorem getPage_pages_partition (text : string) (f : filter) (s : nat) (w : world) :
  0 < s ->
  search_filter text = Some f ->
  exists k,
    (forall p, option_map totalPages (page_result_of text p s w) = Some (JS.Fin k)) /\
    List.concat (map (fun p => page_users text p s w) (seq 0 k)) =
      map delete_password (sort_by_name (List.filter (matches f) (users w))) /\
    (forall p, k <= p -> page_users text p s w = []) /\
    (forall p, List.length (page_users text p s w) <= s).
Proof.
  intros Hs F.
  set (all := map delete_password (sort_by_name (List.filter (matches f) (users w)))).
  assert (Len : List.length all = List.length (List.filter (matches f) (users w))).
  { unfold all. rewrite length_map.
    apply Permutation_length, sort_by_name_perm. }
  destruct (ceil_div_spec (List.length (List.filter (matches f) (users w))) s Hs)
    as [k [C [Lo Hi]]].
  exists k. split; [| split; [| split]].
  - intros p. unfold page_result_of. rewrite (getPage_run text f p s w F).
    simpl. rewrite C. reflexivity.
  - rewrite (map_ext _ (fun p => firstn s (List.skipn (p * s) all))).
    + apply chunks_concat; [exact Hs | lia].
    + intros p. apply (page_users_slice text f p s w Hs F).
  - intros p Hp. rewrite (page_users_slice text f p s w Hs F). fold all.
    rewrite skipn_all2; [destruct s; reflexivity | nia].
  - intros p. rewrite (page_users_slice text f p s w Hs F).
    rewrite length_firstn. lia.
Qed.

End Paging.

Section Sessions.

Import User UserController.
Context {model : Model}.

(** A call of the controller, with its arguments. *)
Inductive call :=
| CreateUser (email : JS.value) (password : JS.optstr)
| LoginWithToken (token : string)
| LoginWithPassword (email : string) (password : JS.optstr)
| GetAll
| GetPage (query : page_query)
| GetById (id : nat)
| UpdateProfileById (id : nat) (profile : Profile)
| VerifyByToken (token : string)
| SendVerificationEmailById (id : nat)
| SendPasswordResetEmail (email : string)
| ChangePassword (id : option nat) (oldPassword newPassword : JS.optstr)
| ResetPassword (token password : JS.optstr)
| PushSubmissionById (id : nat) (s : submission).

Definition discard {A : Type} (c : M A) : M unit := bind c (fun _ => ret tt).

(** The call is made and what its callback receives is dropped. *)
Definition perform (c : call) : M unit :=
  match c with
  | CreateUser e p => discard (createUser e p)
  | LoginWithToken t => discard (loginWithToken t)
  | LoginWithPassword e p => discard (loginWithPassword e p)
  | GetAll => discard getAll
  | GetPage q => discard (getPage q)
  | GetById id => discard (getById id)
  | UpdateProfileById id p => discard (updateProfileById id p)
  | VerifyByToken t => discard (verifyByToken t)
  | SendVerificationEmailById id => discard (sendVerificationEmailById id)
  | SendPasswordResetEmail e => discard (sendPasswordResetEmail e)
  | ChangePassword id o n => discard (changePassword id o n)
  | ResetPassword t p => discard (resetPassword t p)
  | PushSubmissionById id s => discard (pushSubmissionById id s)
  end.

(** Calls made one after the other, each on the world the previous left. *)
Fixpoint perform_all (cs : list call) : M unit :=
  match cs with
  | [] => ret tt
  | c :: cs' => bind (perform c) (fun _ => perform_all cs')
  end.

(** The three ways a call can leave the collection: as it was, with one
    update that clears no verification flag applied to its first match, or
    with one new user under a lower-case email that had no account. *)
Definition store_effect (us us' : list doc) : Prop :=
  us' = us \/
  (exists f upd new_,
     forallb benign upd = true /\ us' = fst (update_first f upd new_ us)) \/
  (exists e u,
     account_of e us = None /\ email u = JS.toLowerCase e /\ us' = us ++ [u]).

(** The collection [us'] holds the users of [us], in order, each with its
    identifier and email and still verified if it was, followed by the users
    added since. *)
Definition grows (us us' : list doc) : Prop :=
  exists old added, us' = old ++ added /\ Forall2 kept us old.

(** Stored emails are in lower case and no two users share one. *)
Definition unique_emails (us : list doc) : Prop :=
  NoDup (map email us) /\
  Forall (fun e => JS.toLowerCase e = e) (map email us).

Lemma discard_run {A : Type} (c : M A) (w w' : world) :
  discard c w = JS.Returns (tt, w') -> exists a, c w = JS.Returns (a, w').
Proof.
  unfold discard, bind, ret. destruct (c w) as [[a w1] | e]; [| discriminate].
  intros H. injection H as <-. exists a. reflexivity.
Qed.

Lemma loginWithPassword_users (e : string) (password : JS.optstr)
  (w w' : world) (cb : callback (string * doc)) :
  loginWithPassword e password w = JS.Returns (cb, w') -> users w' = users w.
Proof.
  intros Run.
  destruct (JS.falsy password) eqn:P.
  - unfold loginWithPassword in Run. rewrite P in Run.
    injection Run as _ <-. reflexivity.
  - destruct (isEmail e) eqn:E.
    + rewrite (loginWithPassword_lookup e password w P E) in Run.
      destruct (account_of e (users w)) as [d |];
        [destruct (checkPassword d password) |];
        injection Run as _ <-; reflexivity.
    + unfold loginWithPassword in Run. rewrite P, E in Run.
      injection Run as _ <-. reflexivity.
Qed.

Lemma getPage_users (q : page_query) (w w' : world) (cb : callback page_result) :
  getPage q w = JS.Returns (cb, w') -> users w' = users w.
Proof.
  unfold getPage. destruct (query_text q) as [t |]; [| discriminate].
  unfold bind. destruct (0 <? String.length t)%nat.
  - destruct (RegExp_i t); [| discriminate].
    intros H. injection H as _ <-. reflexivity.
  - intros H. injection H as _ <-. reflexivity.
Qed.

Lemma update_effect (f : filter) (upd : list assignment) (new_ : bool)
  (us : list doc) :
  forallb benign upd = true ->
  store_effect us (fst (update_first f upd new_ us)).
Proof.
  intros B. right. left. exists f, upd, new_. split; [exact B | reflexivity].
Qed.

Lemma updateProfileById_effect (id : nat) (p : Profile) (w w' : world)
  (cb : callback doc) :
  updateProfileById id p w = JS.Returns (cb, w') ->
  store_effect (users w) (users w').
Proof.
  unfold updateProfileById. destruct (validateProfile p).
  - intros H. injection H as _ <-. left. reflexivity.
  - unfold bind at 1. unfold Store.Date_now. unfold bind at 1.
    rewrite findOneAndUpdate_run. intros H. injection H as _ <-.
    apply update_effect. reflexivity.
Qed.

Lemma verifyByToken_effect (token : string) (w w' : world) (cb : callback doc) :
  verifyByToken token w = JS.Returns (cb, w') ->
  store_effect (users w) (users w').
Proof.
  intros Run.
  destruct (verifyEmailVerificationToken token) as [e a] eqn:V.
  destruct (RegExp_i ("^" ++ JS.to_string a ++ "$")) as [re |] eqn:R.
  - rewrite (verifyByToken_run token e a re w V R) in Run.
    injection Run as _ <-. apply update_effect. reflexivity.
  - unfold verifyByToken in Run. rewrite V, R in Run. discriminate Run.
Qed.

Lemma sendVerificationEmailById_users (id : nat) (w w' : world) (cb : callback doc) :
  sendVerificationEmailById id w = JS.Returns (cb, w') -> users w' = users w.
Proof.
  unfold sendVerificationEmailById, bind, Store.exec_one.
  destruct (run_one _ (users w)); intros H; injection H as _ <-; reflexivity.
Qed.

Lemma sendPasswordResetEmail_users (e : string) (w w' : world) (cb : callback unit) :
  sendPasswordResetEmail e w = JS.Returns (cb, w') -> users w' = users w.
Proof.
  unfold sendPasswordResetEmail, bind, Store.exec_one.
  destruct (run_one _ (users w)); intros H; injection H as _ <-; reflexivity.
Qed.

Lemma changePassword_effect (id : option nat) (old new : JS.optstr)
  (w w' : world) (cb : callback doc) :
  changePassword id old new w = JS.Returns (cb, w') ->
  store_effect (users w) (users w').
Proof.
  unfold changePassword. destruct id as [id |].
  - destruct (JS.falsy old || JS.falsy new).
    + intros H. injection H as _ <-. left. reflexivity.
    + unfold bind at 1. unfold Store.exec_one.
      destruct (option_map only_password _) as [u |]; [| discriminate].
      destruct (checkPassword u old).
      * unfold bind. rewrite findOneAndUpdate_run.
        intros H. injection H as _ <-. apply update_effect. reflexivity.
      * intros H. injection H as _ <-. left. reflexivity.
  - intros H. injection H as _ <-. left. reflexivity.
Qed.

Lemma resetPassword_effect (token password : JS.optstr) (w w' : world)
  (cb : callback error) :
  resetPassword token password w = JS.Returns (cb, w') ->
  store_effect (users w) (users w').
Proof.
  unfold resetPassword.
  destruct token as [tok |];
    [| destruct password; intros H; injection H as _ <-; left; reflexivity].
  destruct password as [p |];
    [| intros H; injection H as _ <-; left; reflexivity].
  destruct (JS.falsy (Some p) || JS.falsy (Some tok));
    [intros H; injection H as _ <-; left; reflexivity |].
  destruct (String.length p <? 6)%nat;
    [intros H; injection H as _ <-; left; reflexivity |].
  destruct (verifyTempAuthToken tok) as [e [id |]];
    destruct e; try (intros H; injection H as _ <-; left; reflexivity).
  unfold bind at 1. rewrite findOneAndUpdate_run.
  destruct (snd (update_first _ _ false (users w)));
    intros H; injection H as _ <-; apply update_effect; reflexivity.
Qed.

Lemma pushSubmissionById_effect (id : nat) (s : submission) (w w' : world)
  (cb : callback doc) :
  pushSubmissionById id s w = JS.Returns (cb, w') ->
  store_effect (users w) (users w').
Proof.
  unfold pushSubmissionById, bind, Store.console_log, ret.
  rewrite findOneAndUpdate_run. intros H. injection H as _ <-.
  apply (update_effect _ [SetCode (submission_code s); SetTitle (submission_title s)]).
  reflexivity.
Qed.

(** Every call that returns leaves the collection in one of the three
    ways. *)
Lemma perform_effect (c : call) (w w' : world) :
  perform c w = JS.Returns (tt, w') -> store_effect (users w) (users w').
Proof.
  destruct c; intros H; apply discard_run in H; destruct H as [a Run].
  - destruct (createUser_cases _ _ _ _ _ Run)
      as [[_ [U _]] | [e [p [_ [_ [F [_ [U _]]]]]]]].
    + left. exact U.
    + right. right. exists e, (registered e (Some p) w).
      split; [exact F |]. split; [reflexivity | exact U].
  - injection Run as _ <-. left. reflexivity.
  - left. eapply loginWithPassword_users. exact Run.
  - injection Run as _ <-. left. reflexivity.
  - left. eapply getPage_users. exact Run.
  - injection Run as _ <-. left. reflexivity.
  - eapply updateProfileById_effect. exact Run.
  - eapply verifyByToken_effect. exact Run.
  - left. eapply sendVerificationEmailById_users. exact Run.
  - left. eapply sendPasswordResetEmail_users. exact Run.
  - eapply changePassword_effect. exact Run.
  - eapply resetPassword_effect. exact Run.
  - eapply pushSubmissionById_effect. exact Run.
Qed.

Lemma Forall2_kept_trans (a b c : list doc) :
  Forall2 kept a b -> Forall2 kept b c -> Forall2 kept a c.
Proof.
  intros H. revert c. induction H as [| x y a b K _ IH]; intros c H2.
  - inversion H2. constructor.
  - inversion H2 as [| y' z b' c' K2 H2']; subst.
    constructor; [eapply kept_trans; eassumption | apply IH; assumption].
Qed.

Lemma grows_refl (us : list doc) : grows us us.
Proof.
  exists us, []. split; [symmetry; apply app_nil_r | apply Forall2_kept_refl].
Qed.

Lemma grows_trans (a b c : list doc) : grows a b -> grows b c -> grows a c.
Proof.
  intros [o1 [n1 [E1 K1]]] [o2 [n2 [E2 K2]]]. subst b.
  apply Forall2_app_inv_l in K2. destruct K2 as [o2a [o2b [Ka [Kb E]]]].
  subst o2. exists o2a, (o2b ++ n2). split.
  - rewrite E2, app_assoc. reflexivity.
  - eapply Forall2_kept_trans; eassumption.
Qed.

Lemma store_effect_grows (us us' : list doc) : store_effect us us' -> grows us us'.
Proof.
  intros [-> | [[f [upd [n [B ->]]]] | [e [u [_ [_ ->]]]]]].
  - apply grows_refl.
  - eexists. exists []. split; [symmetry; apply app_nil_r |].
    apply update_first_kept. exact B.
  - exists us, [u]. split; [reflexivity | apply Forall2_kept_refl].
Qed.

Lemma store_effect_unique (us us' : list doc) :
  store_effect us us' -> unique_emails us -> unique_emails us'.
Proof.
  intros [-> | [[f [upd [n [B ->]]]] | [e [u [F [E ->]]]]]] [N L].
  - split; assumption.
  - unfold unique_emails.
    rewrite (Forall2_kept_emails _ _ (update_first_kept f upd n us B)).
    split; assumption.
  - unfold unique_emails. rewrite map_app. simpl. split.
    + apply NoDup_app_remove_r with (l' := []). rewrite app_nil_r.
      apply Permutation_NoDup with (l := email u :: map email us).
      * apply Permutation_cons_append.
      * constructor; [| exact N].
        intros I. apply in_map_iff in I. destruct I as [d [Ed Id]].
        pose proof (find_none_forall _ _ F d Id) as Neq. simpl in Neq.
        rewrite Ed, E, String.eqb_refl in Neq. discriminate Neq.
    + apply Forall_app. split; [exact L |].
      constructor; [| constructor]. rewrite E. apply toLowerCase_idem.
Qed.

(** X10.  Whatever calls are made, in whatever order, as long as each
    returns: no user is removed or reordered, no user's identifier or email
    changes, and no verified user becomes unverified; the collection only
    gains users at its end. *)
Theorem calls_keep_users (cs : list call) (w w' : world) :
  perform_all cs w = JS.Returns (tt, w') ->
  grows (users w) (users w').
Proof.
  revert w. induction cs as [| c cs IH]; intros w; simpl.
  - intros H. injection H as <-. apply grows_refl.
  - unfold bind. destruct (perform c w) as [[[] w1] | e] eqn:P; [| discriminate].
    intros H. apply grows_trans with (users w1).
    + apply store_effect_grows. apply (perform_effect c w w1 P).
    + apply IH. exact H.
Qed.

(** X11.  Email uniqueness is an invariant of the controller: if the stored
    emails are in lower case and pairwise distinct, they still are after
    any sequence of calls that return. *)
Theorem calls_keep_emails_unique (cs : list call) (w w' : world) :
  unique_emails (users w) ->
  perform_all cs w = JS.Returns (tt, w') ->
  unique_emails (users w').
Proof.
  revert w. induction cs as [| c cs IH]; intros w U; simpl.
  - intros H. injection H as <-. exact U.
  - unfold bind. destruct (perform c w) as [[[] w1] | e] eqn:P; [| discriminate].
    intros H. apply (IH w1); [| exact H].
    apply (store_effect_unique (users w)); [| exact U].
    apply (perform_effect c w w1 P).
Qed.

End Sessions.

Section Reporting.

Import User UserController.
Context {model : Model}.

















(** A search text the engine rejects makes [getPage] throw when it builds
    the regular expression. *)
Lemma getPage_rejected_text (text : string) (p s : nat) (w : world) :
  0 < String.length text ->
  RegExp_i text = None ->
  getPage (mkPageQuery p s (Some text)) w =
    JS.Throws "SyntaxError: Invalid regular expression".
Proof.
  intros L R. unfold getPage. simpl.
  destruct (Nat.ltb_spec 0 (String.length text)) as [_ | Ge]; [| lia].
  unfold bind. rewrite R. reflexivity.
Qed.

End Reporting.

(* ===================================================================== *)
(** ** String suffix test                                                *)
(* ===================================================================== *)

Section EndsWith.

Import UserController.

Lemma starts_with_length (t s : string) :
  JS.starts_with t s = true -> String.length s <= String.length t.
Proof.
  revert t. induction s as [| c s IH]; intros t H; simpl in *.
  - lia.
  - destruct t as [| d t]; [discriminate |].
    apply andb_true_iff in H. destruct H as [_ H].
    apply IH in H. simpl. lia.
Qed.

Lemma starts_with_same_length (t s : string) :
  String.length t = String.length s ->
  JS.starts_with t s = true <-> t = s.
Proof.
  revert t. induction s as [| c s IH]; intros t L.
  - destruct t; [simpl; tauto | discriminate].
  - destruct t as [| d t]; [discriminate |].
    simpl in L. injection L as L. simpl.
    rewrite andb_true_iff, (IH t L), Ascii.eqb_eq.
    split.
    + intros [E1 E2]. subst. reflexivity.
    + intros E. injection E as E1 E2. subst. tauto.
Qed.

Lemma first_occurrence_fits (s t : string) (from k : nat) :
  JS.first_occurrence s t from = Some k -> String.length s <= String.length t.
Proof.
  revert from. induction t as [| d t IH]; intros from; cbn [JS.first_occurrence].
  - destruct s; simpl; intros H; [lia | discriminate H].
  - destruct (JS.starts_with (String d t) s) eqn:P.
    + intros _. apply starts_with_length in P. exact P.
    + intros H. apply IH in H. simpl. lia.
Qed.

Lemma first_occurrence_same_length (s t : string) (from : nat) :
  String.length t = String.length s ->
  JS.first_occurrence s t from =
    if JS.starts_with t s then Some from else None.
Proof.
  intros L. destruct t as [| d t]; cbn [JS.first_occurrence].
  - destruct s; reflexivity.
  - destruct (JS.starts_with (String d t) s); [reflexivity |].
    destruct (JS.first_occurrence s t (S from)) as [k |] eqn:F; [| reflexivity].
    apply first_occurrence_fits in F. simpl in L. lia.
Qed.

Lemma drop_app_exact (p s : string) :
  JS.drop (String.length p) (p ++ s) = s.
Proof. induction p as [| c p IH]; simpl; [reflexivity | exact IH]. Qed.

Lemma drop_split (n : nat) (t : string) :
  n <= String.length t ->
  exists p, t = (p ++ JS.drop n t)%string /\ String.length p = n.
Proof.
  revert t. induction n as [| n IH]; intros t L.
  - exists "". split; reflexivity.
  - destruct t as [| c t]; [simpl in L; lia |].
    simpl in L. destruct (IH t) as [p [E Lp]]; [lia |].
    exists (String c p). simpl. split; [f_equal; exact E | f_equal; exact Lp].
Qed.

Lemma length_append (p s : string) :
  String.length (p ++ s) = String.length p + String.length s.
Proof. induction p as [| c p IH]; simpl; [reflexivity | f_equal; exact IH]. Qed.

(** X1.  [endsWith s test] holds exactly when [test] is some string followed
    by [s]; in particular it is false, not an error, when [s] is longer
    than [test], and true for the empty [s]. *)
Theorem endsWith_iff_suffix (s test : string) :
  endsWith s test = true <-> exists p, test = (p ++ s)%string.
Proof.
  unfold endsWith, JS.indexOf.
  set (n := String.length test). set (m := String.length s).
  destruct (le_lt_dec m n) as [Le | Gt].
  - replace (Z.to_nat (Z.min (Z.max (Z.of_nat n - Z.of_nat m) 0) (Z.of_nat n)))
      with (n - m) by lia.
    destruct (drop_split (n - m) test) as [p [E Lp]]; [unfold n; lia |].
    assert (Ld : String.length (JS.drop (n - m) test) = m).
    { apply (f_equal String.length) in E. rewrite length_append, Lp in E.
      fold n in E. lia. }
    rewrite (first_occurrence_same_length s _ (n - m) Ld).
    destruct (JS.starts_with (JS.drop (n - m) test) s) eqn:P.
    + apply (starts_with_same_length _ _ Ld) in P.
      split; [| intros _; destruct (Z.eqb_spec (Z.of_nat (n - m)) (-1)); [lia | reflexivity]].
      intros _. exists p. rewrite <- P. exact E.
    + split; [simpl; discriminate |].
      intros [q Eq]. exfalso.
      assert (Lq : String.length q = n - m).
      { apply (f_equal String.length) in Eq. rewrite length_append in Eq.
        fold n m in Eq. lia. }
      assert (D : JS.drop (n - m) test = s).
      { rewrite Eq, <- Lq. apply drop_app_exact. }
      apply (starts_with_same_length _ _ Ld) in D. congruence.
  - replace (Z.to_nat (Z.min (Z.max (Z.of_nat n - Z.of_nat m) 0) (Z.of_nat n)))
      with 0 by lia.
    simpl JS.drop.
    destruct (JS.first_occurrence s test 0) as [k |] eqn:F.
    + apply first_occurrence_fits in F. fold n m in F. lia.
    + split; [simpl; discriminate |].
      intros [q Eq]. apply (f_equal String.length) in Eq.
      rewrite length_append in Eq. fold n m in Eq. lia.
Qed.

End EndsWith.

(* ===================================================================== *)
(** ** The client state store                                            *)
(* ===================================================================== *)

Section ReduxFacts.

Import Redux.

(** The action replaces the whole state ([LOAD_STORED_STATE]). *)
Definition replaces_state (a : action) : bool :=
  match a with
  | LOAD_STORED_STATE _ => true
  | _ => false
  end.

Definition is_toggle (a : action) : bool :=
  match a with
  | TOGGLE_PLAY => true
  | _ => false
  end.

Lemma get_app (k : string) (a b : object) :
  get k (a ++ b) = match get k a with Some v => Some v | None => get k b end.
Proof.
  induction a as [| [k' v] a IH]; simpl.
  - reflexivity.
  - destruct (String.eqb k k'); [reflexivity | exact IH].
Qed.

Lemma get_assign (k : string) (st src : object) :
  get k (Object_assign [] [st; src]) =
    match get k src with Some v => Some v | None => get k st end.
Proof.
  unfold Object_assign. simpl. rewrite app_nil_r. apply get_app.
Qed.

Lemma get_none_iff (k : string) (o : object) :
  get k o = None <-> ~ In k (map fst o).
Proof.
  induction o as [| [k' v] o IH]; simpl.
  - tauto.
  - destruct (String.eqb_spec k k') as [E | N].
    + split; [discriminate | intros H; exfalso; apply H; left; congruence].
    + rewrite IH. split.
      * intros H [E | I]; [congruence | tauto].
      * intros H I. apply H. right. exact I.
Qed.

Lemma get_literal_none (k : string) (props : list (string * value)) :
  ~ In k (map fst props) -> get k (literal props) = None.
Proof.
  intros N. apply get_none_iff. unfold literal.
  rewrite map_rev. intros I. apply N. apply in_rev. exact I.
Qed.

Lemma get_literal_some (k : string) (props : list (string * value)) :
  In k (map fst props) -> get k (literal props) <> None.
Proof.
  intros I H. apply get_none_iff in H. apply H. unfold literal.
  rewrite map_rev. apply in_rev. rewrite rev_involutive. exact I.
Qed.

(** How [reducer] writes: the state it starts from, and the literal it
    assigns over it. *)
Lemma reducer_assigns (s : option object) (a : action) :
  replaces_state a = false ->
  exists props,
    map fst props = written a /\
    reducer s a = Some (Object_assign [] [or_initial s; literal props]) \/
    (a = UNKNOWN /\ reducer s a = Some (or_initial s)).
Proof.
  intros NL. destruct a; try discriminate NL;
    try (eexists; left; split; [| reflexivity]; reflexivity).
  exists []. right. split; reflexivity.
Qed.

(** X16.  Every action other than [LOAD_STORED_STATE] yields a state in
    which each property outside the ones the action writes is exactly as
    before (for a missing state: as in the initial state), and each property
    it writes is defined.  So no action removes a property, and [SET_USER]
    writes [user], never [currentUser]. *)
Theorem reducer_frame (s : option object) (a : action) :
  replaces_state a = false ->
  exists s',
    reducer s a = Some s' /\
    (forall k, ~ In k (written a) -> get k s' = get k (or_initial s)) /\
    (forall k, In k (written a) -> get k s' <> None).
Proof.
  intros NL. destruct (reducer_assigns s a NL) as [props [[W R] | [E R]]].
  - eexists. split; [exact R |]. split; intros k Hk; rewrite get_assign.
    + rewrite get_literal_none; [reflexivity | rewrite W; exact Hk].
    + destruct (get k (literal props)) eqn:G; [discriminate |].
      exfalso. revert G. apply get_literal_some. rewrite W. exact Hk.
  - eexists. split; [exact R |]. subst a. split; intros k Hk.
    + reflexivity.
    + destruct Hk.
Qed.

Ltac by_keys :=
  repeat rewrite get_assign; cbn;
  repeat match goal with
         | |- context [String.eqb ?k ?c] => destruct (String.eqb k c) eqn:?
         end;
  try reflexivity; try congruence.

(** X17.  Setting user and token in one action gives the same state,
    property by property, as setting the user and then the token. *)
Theorem set_user_and_token_is_sequence (s : option object) (u t : value) (k : string) :
  get k (or_initial (reducer s (SET_USER_AND_TOKEN u t))) =
  get k (or_initial (reducer (reducer s (SET_USER u)) (SET_TOKEN t))).
Proof.
  cbn [reducer or_initial]. by_keys.
Qed.

(** X18.  Two [TOGGLE_PLAY] in a row leave every property as it was, except
    that [playing] ends as the boolean of its former truth value: a boolean
    [playing] is restored, any other value is replaced by a boolean. *)
Theorem toggle_play_twice (s : option object) (k : string) :
  get k (or_initial (reducer (reducer s TOGGLE_PLAY) TOGGLE_PLAY)) =
    if String.eqb k "playing"
    then Some (Bool (truthy (read (or_initial s) "playing")))
    else get k (or_initial s).
Proof.
  cbn [reducer or_initial]. repeat rewrite get_assign. cbn.
  destruct (String.eqb k "playing"); [| reflexivity].
  unfold not. cbn [truthy]. rewrite negb_involutive. reflexivity.
Qed.

(** X19.  Every action but [TOGGLE_PLAY] is idempotent: dispatching it twice
    gives, property by property, the state that dispatching it once
    gives. *)
Theorem reducer_idempotent (s : option object) (a : action) (k : string) :
  is_toggle a = false ->
  get k (or_initial (reducer (reducer s a) a)) =
  get k (or_initial (reducer s a)).
Proof.
  intros NT. destruct a; try discriminate NT; cbn [reducer or_initial];
    try reflexivity; by_keys.
Qed.

(** X20.  The two fetch lifecycles share their flags: after the user list
    failed to load, a successful load of one user clears [isError] and
    [isFetching] while [users] stays [null]; the failure is no longer
    visible in the flags. *)
Theorem fetch_flags_are_shared (s : option object) (payload : value) :
  let s' := or_initial (reducer (reducer s USERS_FAILURE) (USER_BY_ID_SUCCESS payload)) in
  read s' "isError" = Bool false /\
  read s' "isFetching" = Bool false /\
  read s' "users" = Null /\
  read s' "currentUser" = payload.
Proof.
  cbn [reducer or_initial]. unfold read.
  repeat split; repeat rewrite get_assign; reflexivity.
Qed.

End ReduxFacts.

(* ===================================================================== *)
(** ** Instances on concrete data                                        *)
(* ===================================================================== *)

(** Instance of C4: the five-character password "hunt2" on an empty store. *)
Lemma createUser_short_password_witness :
  exists m w',
    UserController.createUser (model := Reference.model) (JS.Str "Ada@Example.org") (Some "hunt2")
               Reference.empty = JS.Returns (UserController.failure m, w') /\
    (m = "Password must be 6 or more characters." \/ m = "Email must be a string.") /\
    w' = Reference.empty /\ oplog w' = oplog Reference.empty /\
    users w' = users Reference.empty /\ outbox w' = outbox Reference.empty.
Proof.
  apply (createUser_short_password_fails_before_store
           (model := Reference.model) (JS.Str "Ada@Example.org") (Some "hunt2")
           Reference.empty).
  simpl. lia.
Defined.

(** Instance of C1: registering "Ada@Example.org" with "hunter22" on an empty
    store hands the hash of "hunter22" back to the caller. *)
Lemma createUser_returns_password_hash_witness :
  exists r w',
    UserController.createUser (model := Reference.model)
      (JS.Str "Ada@Example.org") (Some "hunter22") Reference.empty =
      JS.Returns (Callback None (Some r), w') /\
    UserController.token r =
      User.generateAuthToken (Model := Reference.model) (UserController.user r) /\
    In (UserController.user r) (users w') /\
    User.password (UserController.user r) = Some "sha:hunter22".
Proof.
  apply (createUser_returns_password_hash
           (model := Reference.model) "Ada@Example.org" "hunter22" Reference.empty).
  - simpl. lia.
  - reflexivity.
Defined.

(** Instance of C5: "Ada@Example.org" and then "ADA@example.ORG". *)
Lemma createUser_twice_witness :
  exists r1 w1 w2,
    UserController.createUser (model := Reference.model)
      (JS.Str "Ada@Example.org") (Some "hunter22") Reference.empty =
      JS.Returns (Callback None (Some r1), w1) /\
    users w1 = users Reference.empty ++ [UserController.user r1] /\
    User.email (UserController.user r1) = "ada@example.org" /\
    UserController.createUser (model := Reference.model)
      (JS.Str "ADA@example.ORG") (Some "letmein") w1 =
      JS.Returns (UserController.failure "An account for this email already exists.", w2) /\
    users w2 = users w1 /\
    outbox w2 = outbox w1.
Proof.
  apply (createUser_twice_succeeds_once
           (model := Reference.model)
           "Ada@Example.org" "ADA@example.ORG" "hunter22" "letmein" Reference.empty).
  - reflexivity.
  - simpl. lia.
  - simpl. lia.
  - reflexivity.
Defined.

(** Instance of C3: the stored user "ada@example.org" logs in with the right
    password under another spelling of the email, and is turned away with a
    wrong one. *)
Lemma loginWithPassword_contract_witness :
  let w := Reference.holding [Reference.account 1 "ada@example.org" true] in
  (exists u w',
     UserController.loginWithPassword (model := Reference.model)
       "Ada@Example.org" (Some "hunter22") w =
       JS.Returns (Callback None (Some ("auth:I", u)), w') /\
     u = User.delete_password (Reference.account 1 "ada@example.org" true) /\
     User._id u = 1 /\ User.email u = "ada@example.org" /\
     User.password u = None /\ users w' = users w) /\
  (exists m w',
     UserController.loginWithPassword (model := Reference.model)
       "Ada@Example.org" (Some "letmein") w =
       JS.Returns (UserController.failure m, w') /\
     In m login_messages).
Proof.
  intros w. split.
  - destruct (loginWithPassword_contract (model := Reference.model)
                "Ada@Example.org" (Some "hunter22") w) as [_ [_ [_ [_ Right]]]].
    apply (Right (Reference.account 1 "ada@example.org" true)); reflexivity.
  - destruct (loginWithPassword_contract (model := Reference.model)
                "Ada@Example.org" (Some "letmein") w) as [Wrong _].
    apply (Wrong (Reference.account 1 "ada@example.org" true)); reflexivity.
Defined.

(** Instance of C2: a user registered under the email "undefined" is marked
    verified by a token the verifier rejects, and no error is reported. *)
Lemma verifyByToken_rejected_token_witness :
  Reference.verify_email_token "garbage" = (Some (mkError "jwt malformed"), None) /\
  exists w',
    UserController.verifyByToken (model := Reference.model) "garbage"
      (Reference.holding [Reference.account 1 "undefined" false]) =
      JS.Returns
        (Callback None
           (Some (User.delete_password (Reference.account 1 "undefined" true))), w') /\
    users w' = [Reference.account 1 "undefined" true].
Proof.
  split; [reflexivity |].
  destruct (verifyByToken_rejected_token (model := Reference.model)
              "garbage" (mkError "jwt malformed") (Reference.pattern "^undefined$")
              (Reference.holding [Reference.account 1 "undefined" false])
              eq_refl eq_refl) as [Hit _].
  apply (Hit [] (Reference.account 1 "undefined" false) []).
  - reflexivity.
  - intros x [].
  - reflexivity.
Defined.

(** Instance of C6: the token of "a.b@x.io" marks the earlier user
    "a-b@x.io" verified and leaves "a.b@x.io" unverified. *)
Lemma verifyByToken_marks_first_pattern_match_witness :
  JS.toLowerCase "a-b@x.io" <> JS.toLowerCase "a.b@x.io" /\
  exists w',
    UserController.verifyByToken (model := Reference.model) "verify:a.b@x.io"
      (Reference.holding [Reference.account 1 "a-b@x.io" false;
                          Reference.account 2 "a.b@x.io" false]) =
      JS.Returns
        (Callback None
           (Some (User.delete_password (Reference.account 1 "a-b@x.io" true))), w') /\
    users w' = [Reference.account 1 "a-b@x.io" true;
                Reference.account 2 "a.b@x.io" false].
Proof.
  split; [discriminate |].
  apply (verifyByToken_marks_first_pattern_match (model := Reference.model)
           "verify:a.b@x.io" "a.b@x.io" (Reference.pattern "^a.b@x.io$")
           (Reference.holding [Reference.account 1 "a-b@x.io" false;
                               Reference.account 2 "a.b@x.io" false])
           [] [Reference.account 2 "a.b@x.io" false]
           (Reference.account 1 "a-b@x.io" false)).
  - reflexivity.
  - reflexivity.
  - reflexivity.
  - intros x [].
  - reflexivity.
Defined.


(** A password reset asked for an unknown email. *)
Lemma failures_reported_except_not_found_witness :
  exists cb w',
    UserController.sendPasswordResetEmail (model := Reference.model)
      "nobody@example.org"
      (Reference.holding [Reference.account 1 "ada@example.org" true]) =
      JS.Returns (cb, w') /\
    completes_empty cb /\
    outbox w' = [].
Proof.
  destruct (failures_reported_except_not_found (model := Reference.model))
    as [_ [_ [_ [_ Unknown]]]].
  apply (Unknown "nobody@example.org"
           (Reference.holding [Reference.account 1 "ada@example.org" true])).
  reflexivity.
Defined.

(** Instance of C8: two users match the text "a.b"; with pages of one user
    there are two pages, and page 1 holds the second user by name. *)
Lemma getPage_slice_and_totalPages_witness :
  let named (id : nat) (e n : string) :=
    User.assign (Reference.account id e true) (User.SetProfile (User.mkProfile (Some n))) in
  let w := Reference.holding [named 1 "a-b@x.io" "Zoe"; named 2 "c@x.io" "Max";
                              named 3 "a.b@x.io" "Ada"] in
  exists r w',
    UserController.getPage (model := Reference.model)
      (UserController.mkPageQuery 1 1 (Some "a.b")) w =
      JS.Returns (Callback None (Some r), w') /\
    UserController.totalPages r = JS.Fin 2 /\
    UserController.result_users r = [User.delete_password (named 1 "a-b@x.io" "Zoe")].
Proof.
  intros named w.
  destruct (getPage_slice_and_totalPages (model := Reference.model)
              "a.b"
              (User.Or [User.EmailRe (Reference.pattern "a.b");
                        User.ProfileNameRe (Reference.pattern "a.b");
                        User.TeamCodeRe (Reference.pattern "a.b")])
              1 1 w (le_n 1) eq_refl)
    as [r [w' [Run [[k [T [Lo Hi]]] [Slice _]]]]].
  exists r, w'. split; [exact Run |]. split.
  - rewrite T. f_equal.
    match type of Lo with ?n <= _ => set (N := n) in Lo, Hi end.
    vm_compute in N. subst N. lia.
  - rewrite Slice. reflexivity.
Defined.

(* ===================================================================== *)
(** ** Further instances on concrete data                                *)
(* ===================================================================== *)

(** The reference model hashes soundly. *)
Lemma reference_hashing_sound : hashing_sound (model := Reference.model).
Proof.
  intros d q H. simpl. unfold Reference.check. rewrite H. apply String.eqb_refl.
Defined.

(** Ada, registered and verified, alone in the store. *)
Definition ada : User.doc := Reference.account 1 "ada@example.org" true.
Definition ada_world : world := Reference.holding [ada].

(** Instance of X2: a token the verifier rejects, with a good password. *)
Lemma resetPassword_rejects_witness :
  UserController.resetPassword (model := Reference.model)
    (Some "garbage") (Some "letmein7") ada_world =
    JS.Returns (Callback (Some (mkError "jwt malformed")) None, ada_world).
Proof.
  destruct (resetPassword_rejects_before_store (model := Reference.model)
              (Some "garbage") (Some "letmein7") ada_world) as [_ [_ Rejected]].
  apply (Rejected "garbage" "letmein7" (mkError "jwt malformed") None);
    try reflexivity.
  simpl. lia.
Defined.

(** Instance of X3: Ada resets her password to "letmein7". *)
Lemma resetPassword_stores_new_hash_witness :
  exists w',
    UserController.resetPassword (model := Reference.model)
      (Some "reset:I") (Some "letmein7") ada_world =
      JS.Returns (Callback None (Some (mkError "Password successfully reset!")), w') /\
    users w' = [User.assign ada (User.SetPassword "sha:letmein7")] /\
    outbox w' = [PasswordChangedEmail "ada@example.org"].
Proof.
  destruct (resetPassword_stores_new_hash (model := Reference.model)
              "reset:I" "letmein7" 1 ada_world eq_refl) as [Hit _].
  - simpl. lia.
  - reflexivity.
  - apply (Hit [] ada []); [reflexivity | intros x [] | reflexivity].
Defined.

(** Instance of X4: and then logs in with it. *)
Lemma resetPassword_then_login_witness :
  exists w1 t u w2,
    UserController.resetPassword (model := Reference.model)
      (Some "reset:I") (Some "letmein7") ada_world =
      JS.Returns (Callback None (Some (mkError "Password successfully reset!")), w1) /\
    UserController.loginWithPassword (model := Reference.model)
      "ada@example.org" (Some "letmein7") w1 =
      JS.Returns (Callback None (Some (t, u)), w2) /\
    User._id u = 1 /\ User.email u = "ada@example.org".
Proof.
  apply (resetPassword_then_login (model := Reference.model)
           "reset:I" "letmein7" 1 ada ada_world reference_hashing_sound).
  - reflexivity.
  - simpl. lia.
  - reflexivity.
  - reflexivity.
  - reflexivity.
  - reflexivity.
Defined.

(** Instance of X5: Bob registers as "Bob@Example.org" and logs in as
    "bob@example.org". *)
Lemma createUser_then_login_witness :
  exists r w1 t w2,
    UserController.createUser (model := Reference.model)
      (JS.Str "Bob@Example.org") (Some "hunter22") ada_world =
      JS.Returns (Callback None (Some r), w1) /\
    UserController.loginWithPassword (model := Reference.model)
      "bob@example.org" (Some "hunter22") w1 =
      JS.Returns
        (Callback None (Some (t, User.delete_password (UserController.user r))), w2) /\
    users w2 = users ada_world ++ [UserController.user r].
Proof.
  apply (createUser_then_login (model := Reference.model)
           "Bob@Example.org" "bob@example.org" "hunter22" ada_world
           reference_hashing_sound).
  - simpl. lia.
  - reflexivity.
  - reflexivity.
  - reflexivity.
Defined.

(** Instance of X7: Ada asks for a reset as "Ada@Example.org". *)
Lemma sendPasswordResetEmail_known_witness :
  exists w',
    UserController.sendPasswordResetEmail (model := Reference.model)
      "Ada@Example.org" ada_world =
      JS.Returns (Callback None (Some tt), w') /\
    users w' = users ada_world /\
    outbox w' = [PasswordResetEmail "Ada@Example.org" "reset:I"].
Proof.
  apply (sendPasswordResetEmail_known (model := Reference.model)
           "Ada@Example.org" ada ada_world).
  reflexivity.
Defined.

(** Instance of X9: Ada fills in her profile. *)
Lemma updateProfileById_updates_verified_user_witness :
  exists d' w',
    UserController.updateProfileById (model := Reference.model)
      1 (User.mkProfile (Some "Ada")) ada_world =
      JS.Returns (Callback None (Some (User.delete_password d')), w') /\
    users w' = [d'] /\
    User.profile d' = User.mkProfile (Some "Ada") /\
    User.completedProfile d' = true /\
    User.lastUpdated d' = Some 0%Z /\
    User._id d' = 1 /\ User.email d' = "ada@example.org" /\
    User.password d' = Some "sha:hunter22" /\
    User.verified d' = true /\ User.code d' = None /\ User.title d' = None.
Proof.
  apply (updateProfileById_updates_verified_user (model := Reference.model)
           1 (User.mkProfile (Some "Ada")) ada_world [] [] ada).
  - reflexivity.
  - reflexivity.
  - intros x [].
  - reflexivity.
Defined.

(** A session: a second registration of Ada under another spelling, a new
    user, a submission, a listing. *)
Definition session : list call :=
  [ CreateUser (JS.Str "ADA@example.org") (Some "hunter22");
    CreateUser (JS.Str "Bob@Example.org") (Some "hunter22");
    PushSubmissionById 1 (UserController.mkSubmission (Some "print 1") (Some "one"));
    GetPage (UserController.mkPageQuery 0 10 (Some "")) ].

(** Instance of X10. *)
Lemma calls_keep_users_witness :
  exists w',
    perform_all (model := Reference.model) session ada_world = JS.Returns (tt, w') /\
    grows (users ada_world) (users w').
Proof.
  eexists. split; [reflexivity |].
  apply (calls_keep_users (model := Reference.model) session ada_world).
  reflexivity.
Defined.

(** Instance of X11. *)
Lemma calls_keep_emails_unique_witness :
  exists w',
    perform_all (model := Reference.model) session ada_world = JS.Returns (tt, w') /\
    unique_emails (users w').
Proof.
  eexists. split; [reflexivity |].
  apply (calls_keep_emails_unique (model := Reference.model) session ada_world).
  - split.
    + constructor; [intros [] | constructor].
    + constructor; [reflexivity | constructor].
  - reflexivity.
Defined.

(** Instance of X12: pages of two users over the whole collection. *)
Lemma getPage_pages_partition_witness :
  let w := Reference.holding [ada; Reference.account 2 "bob@example.org" false;
                              Reference.account 3 "cy@example.org" false] in
  exists k,
    (forall p,
       option_map UserController.totalPages
         (page_result_of (model := Reference.model) "" p 2 w) = Some (JS.Fin k)) /\
    List.concat (map (fun p => page_users (model := Reference.model) "" p 2 w) (seq 0 k)) =
      map User.delete_password
          (User.sort_by_name (List.filter (User.matches (User.All [])) (users w))) /\
    (forall p, k <= p -> page_users (model := Reference.model) "" p 2 w = []) /\
    (forall p, List.length (page_users (model := Reference.model) "" p 2 w) <= 2).
Proof.
  intros w.
  apply (getPage_pages_partition (model := Reference.model) "" (User.All []) 2 w).
  - lia.
  - reflexivity.
Defined.

(** Instance of X13: the second registration of Ada changes nothing. *)
Lemma createUser_all_or_nothing_witness :
  exists cb w',
    UserController.createUser (model := Reference.model)
      (JS.Str "ADA@example.org") (Some "hunter22") ada_world = JS.Returns (cb, w') /\
    res cb = None /\ users w' = users ada_world /\ outbox w' = outbox ada_world.
Proof.
  eexists. eexists. split; [reflexivity |].
  destruct (createUser_all_or_nothing (model := Reference.model)
              (JS.Str "ADA@example.org") (Some "hunter22") ada_world _ _ eq_refl)
    as [Fail | [e [r [_ [C _]]]]].
  - exact Fail.
  - discriminate C.
Defined.

(** Instance of X14: Bob follows his verification link twice. *)
Lemma verifyByToken_twice_witness :
  let w := Reference.holding [ada; Reference.account 2 "bob@example" false] in
  exists cb w1 w2,
    UserController.verifyByToken (model := Reference.model) "verify:bob@example" w =
      JS.Returns (cb, w1) /\
    UserController.verifyByToken (model := Reference.model) "verify:bob@example" w1 =
      JS.Returns (cb, w2) /\
    users w2 = users w1 /\
    users w1 = [ada; Reference.account 2 "bob@example" true].
Proof.
  intros w.
  destruct (verifyByToken_twice (model := Reference.model) "verify:bob@example" w _ _ eq_refl)
    as [w2 [Run Same]].
  eexists. eexists. exists w2.
  split; [reflexivity |]. split; [exact Run |]. split; [exact Same | reflexivity].
Defined.

(** Instance of X16: a failed load of the user list, from the initial
    state. *)
Lemma reducer_frame_witness :
  exists s',
    Redux.reducer None Redux.USERS_FAILURE = Some s' /\
    (forall k, ~ In k ["isFetching"; "isError"; "users"] ->
               Redux.get k s' = Redux.get k Redux.initialState) /\
    (forall k, In k ["isFetching"; "isError"; "users"] -> Redux.get k s' <> None).
Proof.
  apply (reducer_frame None Redux.USERS_FAILURE). reflexivity.
Defined.

(** Instance of X19: the same token set twice. *)
Lemma reducer_idempotent_witness :
  Redux.get "token"
    (Redux.or_initial
       (Redux.reducer (Redux.reducer None (Redux.SET_TOKEN (Redux.Str "t0k")))
                      (Redux.SET_TOKEN (Redux.Str "t0k")))) =
  Redux.get "token"
    (Redux.or_initial (Redux.reducer None (Redux.SET_TOKEN (Redux.Str "t0k")))).
Proof.
  apply (reducer_idempotent None (Redux.SET_TOKEN (Redux.Str "t0k")) "token").
  reflexivity.
Defined.


(** C8 fails as stated: the search text "c++" is no regular expression, and
    [getPage] throws on it instead of answering. *)
Lemma getPage_rejected_search_throws :
  UserController.getPage (model := Reference.model)
    (UserController.mkPageQuery 0 10 (Some "c++")) ada_world =
    JS.Throws "SyntaxError: Invalid regular expression" /\
  forall cb w',
    UserController.getPage (model := Reference.model)
      (UserController.mkPageQuery 0 10 (Some "c++")) ada_world <>
    JS.Returns (cb, w').
Proof.
  split; [reflexivity |]. intros cb w' H. discriminate H.
Qed.
